(** * neuralprocesses/model.py: the encoder-decoder model and its objectives

    A shallow embedding of [Model.__call__], [_sample], [_kl], [loglik],
    [elbo] and [predict].  Python values are a small universe [pyval];
    the collaborators of the module (the [lab] backend [B], the coding
    pipeline, the distribution objects) are the fields of a class, so that
    every statement holds for all of them and can be run on a concrete
    instance.  Calls into coders and distributions thread a [world] that
    holds the process-wide scalar [B.epsilon] and the state of the
    collaborators (random generator and the like), and may raise. *)

From Stdlib Require Import ZArith List String Floats QArith Lia.
From stdpp Require Import base option list gmap strings.

Set Default Proof Using "Type".
Set Warnings "-inexact-float,-register-all".
Local Open Scope string_scope.
Local Open Scope Z_scope.

(** ** Exceptions *)

(** The exception classes that matter for the control flow of the module.
    [KeyboardInterrupt], [SystemExit] and [GeneratorExit] derive from
    [BaseException] only; every other class derives from [Exception]. *)
Inductive exc_class :=
  | BaseException | KeyboardInterrupt | SystemExit | GeneratorExit
  | Exception | NameError | TypeError | AttributeError | KeyError
  | ValueError | RuntimeError | LinAlgError | NotFoundLookupError.

(** [isinstance(e, Exception)] by class: what [except Exception] catches. *)
Definition is_Exception (c : exc_class) : bool :=
  match c with
  | BaseException | KeyboardInterrupt | SystemExit | GeneratorExit => false
  | _ => true
  end.

Record exn := { exn_class : exc_class; exn_msg : string }.

Inductive result (A : Type) :=
  | Ok (a : A)
  | Raise (e : exn).
Arguments Ok {A} a.
Arguments Raise {A} e.

Definition is_Ok {A} (r : result A) : bool :=
  match r with Ok _ => true | Raise _ => false end.

(** ** Python values *)

(** The carriers the collaborators provide: [obj] for objects this module
    never looks into (tensors, dtypes, tracking handles, modules), [adist]
    for atomic distributions (instances of
    [AbstractMultiOutputDistribution]), [coder] for encoders and decoders,
    [ext_state] for the state behind the collaborators. *)
Class Carrier := {
  obj : Type;
  adist : Type;
  coder : Type;
  ext_state : Type
}.

Section Values.
Context `{Carrier}.

(** Modelled from the spec: the containers [Parallel] and
    [AugmentedInput] of the packages [parallel] and [augment], which the
    module imports.  [Parallel] is ordered, of fixed length, iterated
    element by element and rebuilt from a sequence in the same order;
    [AugmentedInput] pairs target inputs with auxiliary data. *)
Inductive pyval :=
  | VNone
  | VBool (b : bool)
  | VInt (n : Z)
  | VObj (o : obj)
  | VDist (d : adist)
  | VParallel (xs : list pyval)
  | VAugmentedInput (x aux_t : pyval).

(** [v is None] *)
Definition is_None (v : pyval) : bool :=
  match v with VNone => true | _ => false end.

(** Truth value of [v] in [if v:]; an opaque object, a distribution and a
    wrapper are true, a [Parallel] as its length says. *)
Definition truthy (v : pyval) : bool :=
  match v with
  | VNone => false
  | VBool b => b
  | VInt n => negb (Z.eqb n 0)
  | VParallel xs => negb (Nat.eqb (length xs) 0)
  | _ => true
  end.

(** The world a call runs in: the process-wide scalar [B.epsilon]
    (a Python float, binary64) and the collaborators' state. *)
Record world := { B_epsilon : float; ext : ext_state }.

Definition set_epsilon (e : float) (w : world) : world :=
  {| B_epsilon := e; ext := ext w |}.

(** A computation of this module: it may change the world and either
    returns or raises.  A raise keeps the changes made so far. *)
Definition M (A : Type) : Type := world -> result A * world.

Definition ret {A} (a : A) : M A := fun w => (Ok a, w).
Definition raise {A} (c : exc_class) (msg : string) : M A :=
  fun w => (Raise {| exn_class := c; exn_msg := msg |}, w).
Definition bind {A B} (m : M A) (k : A -> M B) : M B :=
  fun w => match m w with
           | (Ok a, w') => k a w'
           | (Raise e, w') => (Raise e, w')
           end.

(** A call into a collaborator: it reads [B.epsilon], never writes it,
    and works on its own state. *)
Definition Ext (A : Type) : Type := float -> ext_state -> result A * ext_state.

Definition call {A} (f : Ext A) : M A :=
  fun w => let (r, x) := f (B_epsilon w) (ext w) in
           (r, {| B_epsilon := B_epsilon w; ext := x |}).

(** A pure step that may raise. *)
Definition lift {A} (r : result A) : M A := fun w => (r, w).

(** A computation that leaves [B.epsilon] as it found it, whether it
    returns or raises. *)
Definition keeps_epsilon {A} (m : M A) : Prop :=
  forall w, B_epsilon (m w).2 = B_epsilon w.


Section Comprehension.
Context {A B : Type} (f : A -> M B).

(** The list comprehension [[f(x) for x in xs]]: the results in order;
    the first raise stops the iteration. *)
Fixpoint mapM (xs : list A) : M (list B) :=
  match xs with
  | [] => ret []
  | x :: r => bind (f x) (fun y => bind (mapM r) (fun ys => ret (y :: ys)))
  end.
End Comprehension.

Section ZipComprehension.
Context {A B C : Type} (f : A -> B -> M C).

(** [[f(x, y) for x, y in zip(xs, ys)]]: [zip] stops at the end of
    the shorter sequence. *)
Fixpoint zipM (xs : list A) (ys : list B) {struct xs} : M (list C) :=
  match xs, ys with
  | x :: xr, y :: yr =>
      bind (f x y) (fun z => bind (zipM xr yr) (fun zs => ret (z :: zs)))
  | _, _ => ret []
  end.
End ZipComprehension.

(** A run of a comprehension that returns: the elements are evaluated
    in order, each in the world the one before left. *)
Inductive mapM_run {A B : Type} (f : A -> M B)
    : list A -> world -> list B -> world -> Prop :=
  | mapM_run_nil w : mapM_run f [] w [] w
  | mapM_run_cons x xs y ys w w1 w2 :
      f x w = (Ok y, w1) ->
      mapM_run f xs w1 ys w2 ->
      mapM_run f (x :: xs) w (y :: ys) w2.
End Values.

(** Keyword arguments: a dictionary from names to values. *)
Abbreviation kwargs := (gmap string pyval).

Declare Scope py_scope.
Delimit Scope py_scope with py.
Notation "x <- m ;; k" := (bind m (fun x => k))
  (at level 100, m at next level, right associativity) : py_scope.
Local Open Scope py_scope.

(** ** The collaborators *)

Class Externals `{Carrier} := {
  (** the backend [lab], imported as [B]; [axis] is passed as written *)
  B_dtype_float : pyval -> pyval;
  B_promote_dtypes : pyval -> pyval -> pyval;
  np_float64 : pyval;
  B_cast : pyval -> pyval -> pyval;
  B_concat : pyval -> pyval -> Z -> pyval;
  B_mean : pyval -> Z -> pyval;
  B_logsumexp : pyval -> Z -> pyval;
  B_log : pyval -> pyval;
  B_shape : pyval -> Z -> pyval;
  (** the operators [+], [-], [/] and [**] *)
  py_add : pyval -> pyval -> pyval;
  py_sub : pyval -> pyval -> pyval;
  py_div : pyval -> pyval -> pyval;
  py_pow : pyval -> pyval -> pyval;
  (** [v[key]] and [v.name] on objects of other packages *)
  py_getitem : pyval -> string -> result pyval;
  py_getattr : pyval -> string -> result pyval;
  (** the coding pipeline *)
  code : coder -> pyval -> pyval -> pyval -> kwargs -> Ext (pyval * pyval);
  code_track :
    coder -> pyval -> pyval -> pyval -> kwargs -> Ext (pyval * pyval * pyval);
  recode_stochastic :
    coder -> pyval -> pyval -> pyval -> pyval -> kwargs -> Ext pyval;
  (** the distribution interface; [sample] with [num] left out is
      [dist_sample d None] *)
  dist_mean : adist -> Ext pyval;
  dist_var : adist -> Ext pyval;
  dist_sample : adist -> option pyval -> Ext pyval;
  dist_logpdf : adist -> pyval -> Ext pyval;
  dist_kl : adist -> adist -> Ext pyval
}.

Section Program.
Context `{Externals}.

(** ** Dictionaries held by reference

    [Model.__call__] copies its keyword dictionary and deletes a key from
    the copy.  Dictionaries are mutable objects, so they live in a store
    and are named by their index in it. *)
Definition dict_store : Type := list kwargs.

Definition store_new (d : kwargs) (h : dict_store) : nat * dict_store :=
  (length h, (h ++ [d])%list).

Definition store_get (h : dict_store) (r : nat) : kwargs :=
  default ∅ (h !! r).

(** [dict(d)] : a new dictionary with the items of [d] *)
Definition dict_copy (r : nat) (h : dict_store) : nat * dict_store :=
  store_new (store_get h r) h.

(** [key in d] *)
Definition dict_contains (r : nat) (key : string) (h : dict_store) : bool :=
  bool_decide (is_Some (store_get h r !! key)).

(** [del d[key]], for a key that is present *)
Definition dict_del (r : nat) (key : string) (h : dict_store) : dict_store :=
  <[r := delete key (store_get h r)]> h.

(** ** [_sample] *)

Definition no_method {A} (f : string) : M A :=
  raise NotFoundLookupError ("no method of " ++ f ++ " matches the arguments")%string.

(** The two methods of [_sample], selected by the class of [x], the one
    positional argument.  [num] is given by keyword at every call in the
    module, and plum does not dispatch on keywords: whatever it is, it is
    handed on.  The [Parallel] method is the comprehension
    [[_sample(xi, num=num) for xi in x]] wrapped in a [Parallel]. *)
Fixpoint _sample (x : pyval) (num : pyval) {struct x} : M pyval :=
  match x with
  | VDist d => call (dist_sample d (Some num))
  | VParallel xs =>
      ys <- mapM (fun xi => _sample xi num) xs;;
      ret (VParallel ys)
  | _ => no_method "_sample"
  end.

(** [_sample(x)] : [num] defaults to 1. *)
Definition _sample_default (x : pyval) : M pyval := _sample x (VInt 1).

(** ** [_kl] *)

(** [sum(items, start)] *)
Definition py_sum (items : list pyval) (start : pyval) : pyval :=
  fold_left py_add items start.

(** The two methods of [_kl].  The comprehension over [zip(q, p)]
    evaluates the pairs in order and [sum] then adds them up from 0. *)
Fixpoint _kl (q p : pyval) {struct q} : M pyval :=
  match q, p with
  | VDist dq, VDist dp => call (dist_kl dq dp)
  | VParallel qs, VParallel ps =>
      ks <- zipM (fun qi pi => _kl qi pi) qs ps;;
      ret (py_sum ks (VInt 0))
  | _, _ => no_method "_kl"
  end.

(** ** [Model] *)

Record Model := { encoder : coder; decoder : coder }.

(** [Model.__call__(self, xc, yc, xt, *, num_samples, aux_t,
    dtype_enc_sample, **kw_args)], the method for three positional
    arguments.  [kw_args] is the dictionary the call itself builds, so
    it is the first object of a fresh store. *)
Definition Model_call (self : Model) (xc yc xt : pyval)
    (num_samples aux_t dtype_enc_sample : pyval) (kw_args : kwargs) : M pyval :=
  let xt := if is_None aux_t then xt else VAugmentedInput xt aux_t in
  let '(kw_ref, h) := store_new kw_args [] in
  let '(enc_ref, h) := dict_copy kw_ref h in
  let h := if dict_contains enc_ref "noiseless" h
           then dict_del enc_ref "noiseless" h else h in
  r <- call (code (encoder self) xc yc xt (store_get h enc_ref));;
  let '(xz, pz) := r in
  z <- _sample pz num_samples;;
  let z := if truthy dtype_enc_sample then B_cast dtype_enc_sample z else z in
  r <- call (code (decoder self) xz z xt (store_get h kw_ref));;
  let '(_, d) := r in
  ret d.

(** The first of the parameters [params], already bound by position,
    that the keywords of the call name again. *)
Definition bound_twice (params : list string) (kws : kwargs) : option string :=
  List.find (fun name => bool_decide (is_Some (kws !! name))) params.

Definition multiple_values {A} (name : string) : M A :=
  raise TypeError ("got multiple values for argument '" ++ name ++ "'")%string.

(** The parameters of the two methods of [__call__] that a call binds by
    position. *)
Definition positional_names : list string := ["self"; "xc"; "yc"; "xt"].
Definition positional_names_contexts : list string := ["self"; "contexts"; "xt"].

(** How a call [model(xc, yc, xt, **kws)] binds its keywords: a keyword
    that names a parameter bound by position is a [TypeError], raised by
    the call itself; the three named parameters take their values or
    their defaults; the rest is [kw_args]. *)
Definition Model_call_kw (self : Model) (xc yc xt : pyval) (kws : kwargs)
    : M pyval :=
  match bound_twice positional_names kws with
  | Some name => multiple_values name
  | None =>
      Model_call self xc yc xt
        (default (VInt 1) (kws !! "num_samples"))
        (default VNone (kws !! "aux_t"))
        (default VNone (kws !! "dtype_enc_sample"))
        (delete "num_samples" (delete "aux_t" (delete "dtype_enc_sample" kws)))
  end.

(** The method for a list of contexts, called as
    [model(contexts, xt, **kws)]: [Parallel] of the inputs and of the
    outputs, in the order of the list, then the method above with the
    same keywords. *)
Definition Model_call_contexts (self : Model)
    (contexts : list (pyval * pyval)) (xt : pyval) (kws : kwargs) : M pyval :=
  match bound_twice positional_names_contexts kws with
  | Some name => multiple_values name
  | None =>
      Model_call_kw self (VParallel (map fst contexts))
        (VParallel (map snd contexts)) xt kws
  end.
(** ** Calls and attribute access *)

(** The keywords of a call [f(k1=v1, ..., **kw_args)]: a name given
    twice is a [TypeError], raised by the call itself. *)
Fixpoint keywords (named : list (string * pyval)) (kw_args : kwargs)
    : result kwargs :=
  match named with
  | [] => Ok kw_args
  | (k, v) :: rest =>
      match keywords rest kw_args with
      | Ok m =>
          match m !! k with
          | None => Ok (<[k := v]> m)
          | Some _ =>
              Raise {| exn_class := TypeError;
                       exn_msg := "got multiple values for keyword argument '"
                                  ++ k ++ "'" |}
          end
      | Raise e => Raise e
      end
  end.

Definition no_attribute {A} (name : string) : M A :=
  raise AttributeError ("object has no attribute '" ++ name ++ "'")%string.

(** [v.mean], [v.var], [v.sample()] and [v.logpdf(y)]: only a
    distribution has them. *)
Definition attr_mean (v : pyval) : M pyval :=
  match v with VDist d => call (dist_mean d) | _ => no_attribute "mean" end.
Definition attr_var (v : pyval) : M pyval :=
  match v with VDist d => call (dist_var d) | _ => no_attribute "var" end.
Definition method_sample (v : pyval) : M pyval :=
  match v with
  | VDist d => call (dist_sample d None)
  | _ => no_attribute "sample"
  end.
Definition method_logpdf (v y : pyval) : M pyval :=
  match v with
  | VDist d => call (dist_logpdf d y)
  | _ => no_attribute "logpdf"
  end.

(** ** [loglik] *)

Definition loglik (model : Model) (xc yc xt yt : pyval) (num_samples : Z)
    (normalise : bool) (kw_args : kwargs) : M pyval :=
  let float_ := B_dtype_float yt in
  let float64 := B_promote_dtypes float_ np_float64 in
  kws <- lift (keywords [("num_samples", VInt num_samples);
                         ("dtype_enc_sample", float_);
                         ("dtype_lik", float64)] kw_args);;
  pred <- Model_call_kw model xc yc xt kws;;
  logpdfs <- method_logpdf pred (B_cast float64 yt);;
  let logpdfs :=
    if 1 <? num_samples
    then py_sub (B_logsumexp logpdfs 0) (B_log (VInt num_samples))
    else logpdfs in
  let logpdfs :=
    if normalise then py_div logpdfs (B_shape xt (-1)) else logpdfs in
  ret logpdfs.

(** ** [elbo] *)

Definition elbo (model : Model) (xc yc xt yt : pyval) (num_samples : Z)
    (normalise subsume_context : bool) (kw_args : kwargs) : M pyval :=
  let float_ := B_dtype_float yt in
  let float64 := B_promote_dtypes float_ np_float64 in
  let '(xt, yt) :=
    if subsume_context
    then (B_concat xc xt (-1), B_concat yc yt (-1))
    else (xt, yt) in
  kws <- lift (keywords [("dtype_lik", float64)] kw_args);;
  r <- call (code_track (encoder model) xc yc xt kws);;
  let '(xz, pz, h) := r in
  kws <- lift (keywords [("dtype_lik", float64)] kw_args);;
  qz <- call (recode_stochastic (encoder model) pz xt yt h kws);;
  z <- _sample qz (VInt num_samples);;
  let z := B_cast float_ z in
  kws <- lift (keywords [("dtype_lik", float64)] kw_args);;
  r <- call (code (decoder model) xz z xt kws);;
  let '(_, d) := r in
  logpdfs <- method_logpdf d (B_cast float64 yt);;
  kl <- _kl qz pz;;
  let elbos := py_sub (B_mean logpdfs 0) kl in
  let elbos :=
    if normalise then py_div elbos (B_shape xt (-1)) else elbos in
  ret elbos.

(** The run of [elbo] up to the two terms of the bound, for the two
    precisions and the target set in use: the prior, the posterior, the
    sample, the decoding, the log-density of the decoded distribution
    and the divergence, each in the world the step before left. *)
Definition elbo_terms (model : Model) (float_ float64 xc yc xt yt : pyval)
    (n : Z) (kw_args : kwargs) (w : world) (logpdfs kl : pyval) (w' : world)
    : Prop :=
  exists kws xz pz h qz z xz' d w1 w2 w3 w4 w5,
    keywords [("dtype_lik", float64)] kw_args = Ok kws /\
    call (code_track (encoder model) xc yc xt kws) w = (Ok (xz, pz, h), w1) /\
    call (recode_stochastic (encoder model) pz xt yt h kws) w1 = (Ok qz, w2) /\
    _sample qz (VInt n) w2 = (Ok z, w3) /\
    call (code (decoder model) xz (B_cast float_ z) xt kws) w3
      = (Ok (xz', d), w4) /\
    method_logpdf d (B_cast float64 yt) w4 = (Ok logpdfs, w5) /\
    _kl qz pz w5 = (Ok kl, w').

(** ** [predict] *)

(** A name that the function does not bind is looked up in the globals
    of the module when the line runs. *)
Definition load_global (G : gmap string pyval) (name : string) : M pyval :=
  match G !! name with
  | Some v => ret v
  | None => raise NameError ("name '" ++ name ++ "' is not defined")%string
  end.

(** [B.epsilon *= 10] *)
Definition escalate (e : float) : float := PrimFloat.mul e 10%float.

(** [B.epsilon > 1e-3] *)
Definition above_ceiling (e : float) : bool := PrimFloat.ltb 1e-3%float e.

(** The [while True] block of [predict].  Every unit of [fuel] pays for
    one pass through the body, that is for one call of
    [pred_noiseless.sample()]; the result is that of the [try]: the
    samples at [break], or the exception that leaves the loop. *)
Fixpoint predict_loop (fuel : nat) (pred_noiseless : pyval)
    (epsilon_before : float) (w : world) : option (result pyval * world) :=
  match fuel with
  | O => None
  | S fuel =>
      match method_sample pred_noiseless w with
      | (Ok samples, w) => Some (Ok samples, w)
      | (Raise e, w) =>
          if is_Exception (exn_class e) then
            let w := set_epsilon (escalate (B_epsilon w)) w in
            if above_ceiling (B_epsilon w)
            then Some (Raise e, set_epsilon epsilon_before w)
            else predict_loop fuel pred_noiseless epsilon_before w
          else Some (Raise e, w)
      end
  end.

(** Lines 277 to 288: the loop between the reading of
    [epsilon_before] and the reset after success. *)
Definition predict_sampling (fuel : nat) (pred_noiseless : pyval) (w : world)
    : option (result pyval * world) :=
  let epsilon_before := B_epsilon w in
  match predict_loop fuel pred_noiseless epsilon_before w with
  | None => None
  | Some (Raise e, w) => Some (Raise e, w)
  | Some (Ok samples, w) => Some (Ok samples, set_epsilon epsilon_before w)
  end.

(** Lines 261 to 264: the marginal statistics. *)
Definition predict_marginals (model : Model) (xc yc xt : pyval)
    (pred_num_samples : Z) : M (pyval * pyval) :=
  pred <- Model_call_kw model xc yc xt
            {[ "num_samples" := VInt pred_num_samples ]};;
  pm <- attr_mean pred;;
  let m1 := B_mean pm 0 in
  pv <- attr_var pred;;
  pm <- attr_mean pred;;
  let m2 := B_mean (py_add pv (py_pow pm (VInt 2))) 0 in
  ret (m1, py_sub m2 (py_pow m1 (VInt 2))).

(** Lines 267 to 275: the second call of the model.  Its arguments are
    evaluated from left to right; [batch], [x] and [torch] are not
    bound in the function. *)
Definition predict_noiseless (G : gmap string pyval) (model : Model)
    (num_samples : Z) : M pyval :=
  batch <- load_global G "batch";;
  a1 <- lift (py_getitem batch "xc");;
  batch <- load_global G "batch";;
  a2 <- lift (py_getitem batch "yc");;
  x <- load_global G "x";;
  torch <- load_global G "torch";;
  f32 <- lift (py_getattr torch "float32");;
  torch <- load_global G "torch";;
  f64 <- lift (py_getattr torch "float64");;
  Model_call_kw model a1 a2 x
    (<["dtype_enc_sample" := f32]>
       (<["dtype_lik" := f64]>
          (<["noiseless" := VBool true]>
             {[ "num_samples" := VInt num_samples ]}))).

Definition predict (G : gmap string pyval) (fuel : nat) (model : Model)
    (xc yc xt : pyval) (pred_num_samples num_samples : Z) (w : world)
    : option (result (pyval * pyval * pyval) * world) :=
  match predict_marginals model xc yc xt pred_num_samples w with
  | (Raise e, w) => Some (Raise e, w)
  | (Ok (mean, var), w) =>
      match predict_noiseless G model num_samples w with
      | (Raise e, w) => Some (Raise e, w)
      | (Ok pred_noiseless, w) =>
          match predict_sampling fuel pred_noiseless w with
          | None => None
          | Some (Raise e, w) => Some (Raise e, w)
          | Some (Ok samples, w) => Some (Ok (mean, var, samples), w)
          end
      end
  end.

(** The names the module binds at its top level (imports, the class and
    the functions), and the names of the built-in namespace. *)
Definition module_names : list string :=
  [ "__name__"; "__doc__"; "__package__"; "__loader__"; "__spec__";
    "__file__"; "__cached__"; "__builtins__";
    "B"; "np"; "indent"; "List"; "Tuple"; "Union"; "_dispatch";
    "AugmentedInput"; "code"; "code_track"; "recode_stochastic";
    "AbstractMultiOutputDistribution"; "Masked"; "Parallel";
    "register_module"; "__all__"; "Model"; "_sample"; "loglik"; "elbo";
    "_kl"; "predict" ].

Definition builtin_names : list string :=
  [ "ArithmeticError"; "AssertionError"; "AttributeError"; "BaseException";
    "BaseExceptionGroup"; "BlockingIOError"; "BrokenPipeError";
    "BufferError"; "BytesWarning"; "ChildProcessError";
    "ConnectionAbortedError"; "ConnectionError"; "ConnectionRefusedError";
    "ConnectionResetError"; "DeprecationWarning"; "EOFError"; "Ellipsis";
    "EncodingWarning"; "EnvironmentError"; "Exception"; "ExceptionGroup";
    "False"; "FileExistsError"; "FileNotFoundError"; "FloatingPointError";
    "FutureWarning"; "GeneratorExit"; "IOError"; "ImportError";
    "ImportWarning"; "IndentationError"; "IndexError"; "InterruptedError";
    "IsADirectoryError"; "KeyError"; "KeyboardInterrupt"; "LookupError";
    "MemoryError"; "ModuleNotFoundError"; "NameError"; "None";
    "NotADirectoryError"; "NotImplemented"; "NotImplementedError";
    "OSError"; "OverflowError"; "PendingDeprecationWarning";
    "PermissionError"; "ProcessLookupError"; "RecursionError";
    "ReferenceError"; "ResourceWarning"; "RuntimeError"; "RuntimeWarning";
    "StopAsyncIteration"; "StopIteration"; "SyntaxError"; "SyntaxWarning";
    "SystemError"; "SystemExit"; "TabError"; "TimeoutError"; "True";
    "TypeError"; "UnboundLocalError"; "UnicodeDecodeError";
    "UnicodeEncodeError"; "UnicodeError"; "UnicodeTranslateError";
    "UnicodeWarning"; "UserWarning"; "ValueError"; "Warning";
    "ZeroDivisionError"; "__build_class__"; "__debug__"; "__import__";
    "abs"; "aiter"; "all"; "anext"; "any"; "ascii"; "bin"; "bool";
    "breakpoint"; "bytearray"; "bytes"; "callable"; "chr"; "classmethod";
    "compile"; "complex"; "copyright"; "credits"; "delattr"; "dict"; "dir";
    "divmod"; "enumerate"; "eval"; "exec"; "exit"; "filter"; "float";
    "format"; "frozenset"; "getattr"; "globals"; "hasattr"; "hash"; "help";
    "hex"; "id"; "input"; "int"; "isinstance"; "issubclass"; "iter"; "len";
    "license"; "list"; "locals"; "map"; "max"; "memoryview"; "min"; "next";
    "object"; "oct"; "open"; "ord"; "pow"; "print"; "property"; "quit";
    "range"; "repr"; "reversed"; "round"; "set"; "setattr"; "slice";
    "sorted"; "staticmethod"; "str"; "sum"; "super"; "tuple"; "type";
    "vars"; "zip" ].

(** The global namespace as the module leaves it once imported: every
    name above bound to some object, and no other name. *)
Definition module_globals (binding : string -> pyval) : gmap string pyval :=
  list_to_map ((fun name => (name, binding name))
                 <$> (module_names ++ builtin_names)%list).
End Program.

(** ** A small instance to run the definitions on

    Tensors are vectors of rationals along one axis, so the size of the
    last axis is the length; a coder hands out the distribution it is
    made of; the state of the collaborators counts the calls of
    [sample]. *)
Module Toy.
Inductive tobj :=
  | Tensor (data : list Q)
  | Dtype (bits : Z)
  | Handle
  | Torch
  | Batch (xc yc : list Q).

Inductive tdist :=
  | Gaussian (mu : Q)
    (** sampling raises [LinAlgError] while [B.epsilon] is below the
        threshold *)
  | NearSingular (threshold : float)
    (** sampling always raises an exception of the class *)
  | Faulty (c : exc_class)
    (** the first call of [sample] fails numerically, the user
        interrupts the next one *)
  | Interrupted.

#[export] Instance toy_carrier : Carrier :=
  {| obj := tobj; adist := tdist; coder := tdist; ext_state := nat |}.

Definition tensor (x : list Q) : pyval := VObj (Tensor (map Qred x)).

Definition data (v : pyval) : list Q :=
  match v with
  | VObj (Tensor x) => x
  | VInt n => [inject_Z n]
  | _ => []
  end.

(** Element by element, a one-element operand being broadcast. *)
Definition pointwise (f : Q -> Q -> Q) (a b : pyval) : pyval :=
  match data a, data b with
  | x, [s] => tensor (map (fun q => f q s) x)
  | [s], y => tensor (map (f s) y)
  | x, y => tensor (zip_with f x y)
  end.

Definition total (x : list Q) : Q := fold_right Qplus 0%Q x.

Definition average (v : pyval) : pyval :=
  tensor [(total (data v) / inject_Z (Z.of_nat (length (data v))))%Q].

Definition count (num : option pyval) : nat :=
  match num with
  | Some (VInt n) => Z.to_nat n
  | Some (VBool false) => 0%nat
  | _ => 1%nat
  end.

Definition error {A} (c : exc_class) (msg : string) : result A :=
  Raise {| exn_class := c; exn_msg := msg |}.

Definition sample (d : tdist) (num : option pyval) : Ext pyval :=
  fun eps calls =>
    match d with
    | Gaussian mu => (Ok (tensor (replicate (count num) mu)), S calls)
    | NearSingular threshold =>
        if PrimFloat.ltb eps threshold
        then (error LinAlgError "matrix is not positive definite", S calls)
        else (Ok (tensor (replicate (count num) 0%Q)), S calls)
    | Faulty c => (error c "sample failed", S calls)
    | Interrupted =>
        match calls with
        | O => (error LinAlgError "matrix is not positive definite", S calls)
        | S _ => (error KeyboardInterrupt "", S calls)
        end
    end.

Definition center (d : tdist) : Q :=
  match d with Gaussian mu => mu | _ => 0%Q end.

(** Stand-ins for the density and the divergence of a unit Gaussian,
    without the constants. *)
Definition logpdf (d : tdist) (y : pyval) : Ext pyval :=
  fun _ calls =>
    (Ok (tensor [(- total (map (fun q => (q - center d) * (q - center d)) (data y)) / 2)%Q]),
     calls).

Definition kl (q p : tdist) : Ext pyval :=
  fun _ calls =>
    (Ok (tensor [((center q - center p) * (center q - center p) / 2)%Q]), calls).

Definition posterior (d : tdist) : tdist :=
  match d with Gaussian mu => Gaussian (mu + 1)%Q | _ => d end.

Definition getitem (v : pyval) (key : string) : result pyval :=
  match v with
  | VObj (Batch xc yc) =>
      if String.eqb key "xc" then Ok (tensor xc)
      else if String.eqb key "yc" then Ok (tensor yc)
      else error KeyError key
  | _ => error TypeError "object is not subscriptable"
  end.

Definition getattr (v : pyval) (name : string) : result pyval :=
  match v with
  | VObj Torch =>
      if String.eqb name "float32" then Ok (VObj (Dtype 32))
      else if String.eqb name "float64" then Ok (VObj (Dtype 64))
      else error AttributeError name
  | _ => error AttributeError name
  end.

#[export] Instance toy : Externals := {|
  B_dtype_float := fun _ => VObj (Dtype 32);
  B_promote_dtypes := fun _ _ => VObj (Dtype 64);
  np_float64 := VObj (Dtype 64);
  B_cast := fun _ v => v;
  B_concat := fun a b _ => tensor (data a ++ data b)%list;
  B_mean := fun v _ => average v;
  B_logsumexp := fun v _ => average v;
  B_log := fun _ => tensor [0%Q];
  B_shape := fun v _ => VInt (Z.of_nat (length (data v)));
  py_add := pointwise Qplus;
  py_sub := pointwise Qminus;
  py_div := pointwise Qdiv;
  py_pow := fun a _ => pointwise Qmult a a;
  py_getitem := getitem;
  py_getattr := getattr;
  code := fun c _ _ xt _ _ calls => (Ok (xt, VDist c), calls);
  code_track := fun c _ _ xt _ _ calls => (Ok (xt, VDist c, VObj Handle), calls);
  recode_stochastic := fun c _ _ _ _ _ _ calls => (Ok (VDist (posterior c)), calls);
  dist_mean := fun d _ calls => (Ok (tensor [center d]), calls);
  dist_var := fun _ _ calls => (Ok (tensor [1%Q]), calls);
  dist_sample := sample;
  dist_logpdf := logpdf;
  dist_kl := kl
|}.

(** The configuration of the test suite: [B.epsilon = 1e-6]. *)
Definition w0 : world := {| B_epsilon := 1e-6%float; ext := 0%nat |}.

Definition unit_model : Model :=
  {| encoder := Gaussian 0; decoder := Gaussian 0 |}.

Definition xc5 : pyval := tensor [1; 2; 3; 4; 5]%Q.
Definition yc5 : pyval := tensor [1; 0; 1; 0; 1]%Q.
Definition xt7 : pyval := tensor [1; 2; 3; 4; 5; 6; 7]%Q.
Definition yt7 : pyval := tensor [1; 1; 1; 1; 1; 1; 1]%Q.

(** A decoder whose prediction cannot be sampled below [1e-4], and one
    whose prediction cannot be sampled at all. *)
Definition stiff_model : Model :=
  {| encoder := Gaussian 0; decoder := NearSingular 1e-4 |}.

Definition g0 : pyval := VDist (Gaussian 0).
Definition g1 : pyval := VDist (Gaussian 1).
Definition g2 : pyval := VDist (Gaussian 2).

Definition options : kwargs :=
  <["noiseless" := VBool true]> {[ "dtype_lik" := VObj (Dtype 64) ]}.

(** Globals with [batch], [x] and [torch] patched in. *)
Definition patched : gmap string pyval :=
  <["batch" := VObj (Batch [1; 2; 3; 4; 5] [1; 0; 1; 0; 1])%Q]>
    (<["x" := xt7]> (<["torch" := VObj Torch]> ∅)).
End Toy.


(** ** Branch structure *)

Section Structure.
Context `{Carrier}.

(** [y] has the branch structure of [x]: where [x] is a distribution [y]
    is what was drawn from it, where [x] is a [Parallel] [y] is a
    [Parallel] of as many elements, each with the structure of the
    branch at its position. *)
Inductive mirrors : pyval -> pyval -> Prop :=
  | mirrors_dist d y : mirrors (VDist d) y
  | mirrors_parallel xs ys :
      Forall2 mirrors xs ys -> mirrors (VParallel xs) (VParallel ys).

(** The two operands of [_kl] are of one kind: two distributions or two
    [Parallel]s. *)
Definition same_kind (q p : pyval) : bool :=
  match q, p with
  | VDist _, VDist _ | VParallel _, VParallel _ => true
  | _, _ => false
  end.

(** [x] is a distribution or a [Parallel]. *)
Definition samplable (x : pyval) : bool :=
  match x with VDist _ | VParallel _ => true | _ => false end.
End Structure.

(** ** tests/util.py: [approx] *)

Module TestUtil.
Section Approx.
(** [array] stands for what [B.to_numpy] accepts, [options] for the
    keyword arguments handed on to [assert_allclose]. *)
Context {array options : Type}.

(** The values the tests compare: [None], arrays, [Parallel]s and
    tuples. *)
Inductive tval :=
  | TNone
  | TArray (a : array)
  | TParallel (xs : list tval)
  | TTuple (xs : list tval).

(** A call of [approx] returns or fails an assertion. *)
Inductive verdict := Passed | AssertionError.

(** [assert_allclose(B.to_numpy(a), B.to_numpy(b), **kw_args)] holds. *)
Context (allclose : tval -> tval -> options -> bool).

Section Each.
Context (f : tval -> tval -> verdict).

(** [for ai, bi in zip(a, b): f(ai, bi)] : the first failure ends the
    loop. *)
Fixpoint approx_each (xs ys : list tval) {struct xs} : verdict :=
  match xs, ys with
  | x :: xr, y :: yr =>
      match f x y with
      | Passed => approx_each xr yr
      | AssertionError => AssertionError
      end
  | _, _ => Passed
  end.
End Each.

(** The three methods of [approx], the most specific one that matches
    being called: both [None]; both a [Parallel] or a tuple; anything
    else. *)
Fixpoint approx (a b : tval) (kw_args : options) {struct a} : verdict :=
  match a, b with
  | TNone, TNone => Passed
  | TParallel xs, TParallel ys | TParallel xs, TTuple ys
  | TTuple xs, TParallel ys | TTuple xs, TTuple ys =>
      if Nat.eqb (length xs) (length ys)
      then approx_each (fun ai bi => approx ai bi kw_args) xs ys
      else AssertionError
  | _, _ => if allclose a b kw_args then Passed else AssertionError
  end.

(** The elements of a [Parallel] or a tuple. *)
Definition elements (v : tval) : option (list tval) :=
  match v with
  | TParallel xs | TTuple xs => Some xs
  | _ => None
  end.
End Approx.

(** Arrays of integers, close when they differ by at most the tolerance
    given. *)
Definition close_within (a b : tval (array:=Z)) (tol : Z) : bool :=
  match a, b with
  | TArray x, TArray y => Z.leb (Z.abs (x - y)) tol
  | _, _ => false
  end.
End TestUtil.

(** ** More of the small instance *)

Module Toy2.
Import Toy.

(** The world of the tests after [calls] calls of [sample]. *)
Definition after (calls : nat) : world :=
  {| B_epsilon := 1e-6%float; ext := calls |}.

Definition faulty : pyval := VDist (Faulty TypeError).

Definition handle : pyval := VObj Handle.

Definition batch_obj : pyval := VObj (Batch [1; 2; 3; 4; 5] [1; 0; 1; 0; 1])%Q.
Definition torch_obj : pyval := VObj Torch.
Definition float32_obj : pyval := VObj (Dtype 32).
Definition float64_obj : pyval := VObj (Dtype 64).

Definition broken : pyval := VDist (Faulty LinAlgError).



Definition clashing_keywords : kwargs := {[ "xc" := VNone ]}.

Definition interrupted : pyval := VDist Interrupted.

Definition call_keywords : kwargs :=
  <["num_samples" := VInt 3]> (<["noiseless" := VBool true]> ∅).

Definition plain_keywords : kwargs := {[ "dtype_lik" := VObj (Dtype 64) ]}.

Definition bad_keywords : kwargs := {[ "num_samples" := VNone ]}.


(** A world in which [B.epsilon] is 0. *)
Definition zero_world : world := {| B_epsilon := 0%float; ext := 0%nat |}.

(** The options [elbo] hands to the coders when given none. *)
Definition elbo_keywords : kwargs := <["dtype_lik" := VObj (Dtype 64)]> ∅.

Definition left_seq : TestUtil.tval (array:=Z) :=
  TestUtil.TParallel [TestUtil.TArray 1; TestUtil.TTuple [TestUtil.TArray 5]].
Definition right_seq : TestUtil.tval (array:=Z) :=
  TestUtil.TTuple [TestUtil.TArray 2; TestUtil.TParallel [TestUtil.TArray 5]].

(** As [Toy.toy], but the tracked encoding hands out its prior wrapped
    in a [Parallel] while the recoding hands out a bare posterior. *)

Definition lopsided : Externals := {|
  B_dtype_float := B_dtype_float (Externals := toy);
  B_promote_dtypes := B_promote_dtypes (Externals := toy);
  np_float64 := np_float64 (Externals := toy);
  B_cast := B_cast (Externals := toy);
  B_concat := B_concat (Externals := toy);
  B_mean := B_mean (Externals := toy);
  B_logsumexp := B_logsumexp (Externals := toy);
  B_log := B_log (Externals := toy);
  B_shape := B_shape (Externals := toy);
  py_add := py_add (Externals := toy);
  py_sub := py_sub (Externals := toy);
  py_div := py_div (Externals := toy);
  py_pow := py_pow (Externals := toy);
  py_getitem := getitem;
  py_getattr := getattr;
  code := code (Externals := toy);
  code_track := fun c _ _ xt _ _ calls =>
    (Ok (xt, VParallel [VDist c], VObj Handle), calls);
  recode_stochastic := recode_stochastic (Externals := toy);
  dist_mean := dist_mean (Externals := toy);
  dist_var := dist_var (Externals := toy);
  dist_sample := sample;
  dist_logpdf := logpdf;
  dist_kl := kl
|}.
End Toy2.

(** * Properties *)

Section Helpers.
Context `{Externals}.

Lemma bind_Ok {A B} (m : M A) (k : A -> M B) (w w1 : world) (a : A) :
  m w = (Ok a, w1) -> bind m k w = k a w1.
Proof. intros E. unfold bind. now rewrite E. Qed.

Lemma bind_Raise {A B} (m : M A) (k : A -> M B) (w w1 : world) (e : exn) :
  m w = (Raise e, w1) -> bind m k w = (Raise e, w1).
Proof. intros E. unfold bind. now rewrite E. Qed.

(** A sequence returns exactly when its first part returns and the
    rest, run on what it left, returns. *)
Lemma bind_returns {A B} (m : M A) (k : A -> M B) (w w' : world) (b : B) :
  bind m k w = (Ok b, w') <->
  exists a w1, m w = (Ok a, w1) /\ k a w1 = (Ok b, w').
Proof.
  unfold bind. split.
  - destruct (m w) as [[a|e] w1] eqn:E; [eauto | discriminate].
  - intros (a & w1 & -> & Hk). exact Hk.
Qed.

Lemma ret_returns {A} (a b : A) (w w' : world) :
  ret a w = (Ok b, w') <-> a = b /\ w = w'.
Proof. unfold ret. split; [intros [= -> ->]; auto | intros [-> ->]; auto]. Qed.

Lemma lift_returns {A} (r : result A) (a : A) (w w' : world) :
  lift r w = (Ok a, w') <-> r = Ok a /\ w = w'.
Proof. unfold lift. split; [intros [= -> ->]; auto | intros [-> ->]; auto]. Qed.

Lemma mapM_returns {A B} (f : A -> M B) (xs : list A) (ys : list B)
    (w w' : world) :
  mapM f xs w = (Ok ys, w') <-> mapM_run f xs w ys w'.
Proof.
  split.
  - revert ys w. induction xs as [|x xs IH]; intros ys w; simpl.
    + intros [= <- <-]. constructor.
    + intros (y & w1 & Hx & Hr)%bind_returns.
      apply bind_returns in Hr as (zs & w2 & Hxs & [= <- <-]).
      econstructor; eauto.
  - induction 1 as [|x xs y ys w w1 w2 Hx _ IH]; simpl; [reflexivity|].
    rewrite (bind_Ok _ _ _ _ _ Hx), (bind_Ok _ _ _ _ _ IH). reflexivity.
Qed.

Lemma mapM_run_length {A B} (f : A -> M B) xs w ys w' :
  mapM_run f xs w ys w' -> length ys = length xs.
Proof. induction 1; simpl; congruence. Qed.

Lemma mapM_run_Forall2 {A B} (f : A -> M B) xs w ys w' :
  mapM_run f xs w ys w' ->
  Forall2 (fun x y => exists w1 w2, f x w1 = (Ok y, w2)) xs ys.
Proof. induction 1; constructor; eauto. Qed.

(** The comprehension over [zip] is the comprehension over the list of
    pairs. *)
Lemma zipM_zip {A B C} (f : A -> B -> M C) (xs : list A) (ys : list B)
    (w : world) :
  zipM f xs ys w = mapM (fun xy => f xy.1 xy.2) (zip xs ys) w.
Proof.
  revert ys w. induction xs as [|x xs IH]; intros [|y ys] w; simpl; try reflexivity.
  unfold bind. destruct (f x y w) as [[z|e] w1]; [|reflexivity].
  now rewrite IH.
Qed.
End Helpers.

Section SamplingAndKL.
Context `{Externals}.

(** C9.  [_sample] on a [Parallel] of n branches and an integer [num]
    (in particular every [num >= 1]) returns exactly when the branches,
    sampled one after the other in branch order with that same [num],
    all return; the value is then a [Parallel] of exactly n elements,
    the i-th one being what the i-th branch gave.  [num] defaults to 1.
    On an atomic distribution the value is what [sample(num)] of the
    distribution returns, passed on as it is: whatever [sample]
    guarantees of its result (a leading axis of size [num], also for
    [num = 1]) holds of every element, nothing being squeezed. *)
Theorem sample_Parallel_mirrors (xs : list pyval) (n : Z) (w : world) :
  (forall r w',
      _sample (VParallel xs) (VInt n) w = (Ok r, w') <->
      exists ys, r = VParallel ys /\
                 mapM_run (fun xi => _sample xi (VInt n)) xs w ys w') /\
  (forall ys w',
      mapM_run (fun xi => _sample xi (VInt n)) xs w ys w' ->
      length ys = length xs /\
      Forall2 (fun xi yi => exists w1 w2, _sample xi (VInt n) w1 = (Ok yi, w2))
              xs ys) /\
  (forall x, _sample_default x = _sample x (VInt 1)) /\
  (forall d, _sample (VDist d) (VInt n) = call (dist_sample d (Some (VInt n)))) /\
  (forall (P : pyval -> Prop),
      (forall d eps x v x',
          dist_sample d (Some (VInt n)) eps x = (Ok v, x') -> P v) ->
      forall ds r w',
        _sample (VParallel (VDist <$> ds)) (VInt n) w = (Ok r, w') ->
        exists ys, r = VParallel ys /\ length ys = length ds /\ Forall P ys).
Proof.
  assert (Hchar : forall xs r w w',
    _sample (VParallel xs) (VInt n) w = (Ok r, w') <->
    exists ys, r = VParallel ys /\
               mapM_run (fun xi => _sample xi (VInt n)) xs w ys w').
  { intros xs0 r w0 w'. simpl. rewrite bind_returns. split.
    - intros (ys & w1 & Hm & [= <- <-]). exists ys. split; [reflexivity|].
      now apply mapM_returns.
    - intros (ys & -> & Hm). exists ys, w'. split; [|reflexivity].
      now apply mapM_returns. }
  split; [intros; apply Hchar|].
  split.
  { intros ys w' Hrun. split.
    - eapply mapM_run_length; eauto.
    - eapply mapM_run_Forall2 in Hrun. exact Hrun. }
  split; [reflexivity|].
  split; [reflexivity|].
  intros P Hcontract ds r w' Hs.
  apply Hchar in Hs as (ys & -> & Hrun).
  exists ys. split; [reflexivity|].
  apply mapM_run_Forall2 in Hrun as HF.
  split.
  - apply Forall2_length in HF. rewrite length_fmap in HF. congruence.
  - clear Hrun. remember (VDist <$> ds) as l eqn:El. revert ds El.
    induction HF as [|x y l l' (w1 & w2 & Hxy) _ IH]; intros ds El.
    + constructor.
    + destruct ds as [|d ds]; [discriminate|]. injection El as -> ->.
      constructor; [|eapply IH; reflexivity].
      simpl in Hxy. unfold call in Hxy.
      destruct (dist_sample d (Some (VInt n)) (B_epsilon w1) (ext w1))
        as [rv x1] eqn:Ed.
      injection Hxy as -> _. eapply Hcontract; eauto.
Qed.

Lemma zip_take_lengths {A B} (xs : list A) (ys : list B) :
  zip (take (length ys) xs) (take (length xs) ys) = zip xs ys.
Proof.
  revert ys. induction xs as [|x xs IH]; intros [|y ys]; simpl; try reflexivity.
  now rewrite IH.
Qed.

(** C2, as the code has it.  [_kl] on two [Parallel]s is the sum,
    seeded at 0 and taken in branch order, of [_kl] on the pairs that
    [zip] yields (of the [kl] of the distributions themselves when the
    branches are atomic).  With equal branch counts these are all n
    pairs.  With different counts nothing is raised for the mismatch:
    the result is that of the operands cut to the shorter length. *)
Theorem kl_Parallel_zip (qs ps : list pyval) (w : world) :
  _kl (VParallel qs) (VParallel ps) w
    = (ks <- mapM (fun qp => _kl qp.1 qp.2) (zip qs ps);;
       ret (fold_left py_add ks (VInt 0))) w /\
  (forall dqs dps : list adist,
      _kl (VParallel (VDist <$> dqs)) (VParallel (VDist <$> dps)) w
        = (ks <- mapM (fun qp => call (dist_kl qp.1 qp.2)) (zip dqs dps);;
           ret (fold_left py_add ks (VInt 0))) w) /\
  (length qs = length ps -> length (zip qs ps) = length qs) /\
  _kl (VParallel qs) (VParallel ps) w
    = _kl (VParallel (take (length ps) qs)) (VParallel (take (length qs) ps)) w.
Proof.
  assert (Hzip : forall qs ps w,
    _kl (VParallel qs) (VParallel ps) w
      = (ks <- mapM (fun qp => _kl qp.1 qp.2) (zip qs ps);;
         ret (fold_left py_add ks (VInt 0))) w).
  { intros qs0 ps0 w0. simpl. unfold bind. rewrite zipM_zip. reflexivity. }
  split; [apply Hzip|]. split; [|split].
  - intros dqs dps. rewrite Hzip. unfold bind.
    replace (mapM (fun qp => _kl qp.1 qp.2) (zip (VDist <$> dqs) (VDist <$> dps)) w)
      with (mapM (fun qp => call (dist_kl qp.1 qp.2)) (zip dqs dps) w);
      [reflexivity|].
    revert dps w. induction dqs as [|dq dqs IH]; intros [|dp dps] w0;
      simpl; try reflexivity.
    unfold bind. destruct (call (dist_kl dq dp) w0) as [[k|e] w1]; [|reflexivity].
    now rewrite IH.
  - intros Hlen. rewrite length_zip_with. lia.
  - rewrite !Hzip. now rewrite zip_take_lengths.
Qed.
End SamplingAndKL.

Section Orchestrator.
Context `{Externals}.

(** The store of [Model.__call__] resolved: the copy without
    ["noiseless"] goes to the encoder, the dictionary itself to the
    decoder. *)
Lemma Model_call_unfold (self : Model) (xc yc xt : pyval)
    (num_samples aux_t dtype_enc_sample : pyval) (kw_args : kwargs) (w : world) :
  let xt' := if is_None aux_t then xt else VAugmentedInput xt aux_t in
  Model_call self xc yc xt num_samples aux_t dtype_enc_sample kw_args w
    = (r <- call (code (encoder self) xc yc xt' (delete "noiseless" kw_args));;
       z <- _sample r.2 num_samples;;
       r' <- call (code (decoder self) r.1
                     (if truthy dtype_enc_sample
                      then B_cast dtype_enc_sample z else z)
                     xt' kw_args);;
       ret r'.2) w.
Proof.
  intros xt'. unfold Model_call. fold xt'.
  cbn [store_new dict_copy length app store_get lookup].
  unfold dict_contains, dict_del, store_get. cbn.
  assert (Hdel : ~ is_Some (kw_args !! "noiseless") ->
                 delete "noiseless" kw_args = kw_args).
  { intros Hin. apply delete_id.
    destruct (kw_args !! "noiseless") eqn:E; [|reflexivity].
    exfalso. apply Hin. eauto. }
  case_bool_decide as Hin; cbn; [|rewrite (Hdel Hin)]; unfold bind.
  - destruct (call (code (encoder self) xc yc xt' (delete "noiseless" kw_args)) w)
      as [[[xz pz]|e] w1]; [|reflexivity]. cbn.
    destruct (_sample pz num_samples w1) as [[z|e] w2]; [|reflexivity].
    destruct (call _ w2) as [[[xz' d]|e] w3]; reflexivity.
  - destruct (call (code (encoder self) xc yc xt' kw_args) w)
      as [[[xz pz]|e] w1]; [|reflexivity]. cbn.
    destruct (_sample pz num_samples w1) as [[z|e] w2]; [|reflexivity].
    destruct (call _ w2) as [[[xz' d]|e] w3]; reflexivity.
Qed.

(** C8.  In [Model.__call__] with three positional arguments and any
    extra keyword options [kw_args]: the encoder's [code] is called on
    [xc], [yc] and the target inputs (wrapped with [aux_t] when that is
    given) with the options without ["noiseless"]; the decoder's [code]
    is called on the same target inputs with the options as supplied,
    ["noiseless"] included, the deletion having been made on a copy.
    Every option other than ["noiseless"] reaches the encoder with the
    value supplied.  The values [xc], [yc], [xt] are passed on as they
    came. *)
Theorem Model_call_options (self : Model) (xc yc xt : pyval)
    (num_samples aux_t dtype_enc_sample : pyval) (kw_args : kwargs) (w : world) :
  let xt' := if is_None aux_t then xt else VAugmentedInput xt aux_t in
  Model_call self xc yc xt num_samples aux_t dtype_enc_sample kw_args w
    = (r <- call (code (encoder self) xc yc xt' (delete "noiseless" kw_args));;
       z <- _sample r.2 num_samples;;
       r' <- call (code (decoder self) r.1
                     (if truthy dtype_enc_sample
                      then B_cast dtype_enc_sample z else z)
                     xt' kw_args);;
       ret r'.2) w /\
  (forall key, key <> "noiseless" ->
               delete "noiseless" kw_args !! key = kw_args !! key) /\
  delete "noiseless" kw_args !! "noiseless" = None.
Proof.
  intros xt'. split; [apply Model_call_unfold|split].
  - intros key Hkey. now apply lookup_delete_ne.
  - apply lookup_delete_eq.
Qed.
End Orchestrator.

Section Objectives.
Context `{Externals}.

(** C6.  [loglik] returns exactly when the keywords are well formed,
    the model returns a prediction and its [logpdf] at [yt] (cast to
    the promoted precision) returns [logpdfs].  If [num_samples > 1]
    the value is [logsumexp(logpdfs, axis=0) - log(num_samples)]; if
    [num_samples = 1] (or less) it is [logpdfs] itself; in both cases
    divided by [shape(xt, -1)] exactly when [normalise] is true. *)
Theorem loglik_collapse (model : Model) (xc yc xt yt : pyval) (n : Z)
    (normalise : bool) (kw_args : kwargs) (w w' : world) (v : pyval) :
  let float_ := B_dtype_float yt in
  let float64 := B_promote_dtypes float_ np_float64 in
  let normalised u := if normalise then py_div u (B_shape xt (-1)) else u in
  loglik model xc yc xt yt n normalise kw_args w = (Ok v, w') <->
  exists kws pred w1 logpdfs,
    keywords [("num_samples", VInt n); ("dtype_enc_sample", float_);
              ("dtype_lik", float64)] kw_args = Ok kws /\
    Model_call_kw model xc yc xt kws w = (Ok pred, w1) /\
    method_logpdf pred (B_cast float64 yt) w1 = (Ok logpdfs, w') /\
    (1 < n ->
     v = normalised (py_sub (B_logsumexp logpdfs 0) (B_log (VInt n)))) /\
    (n <= 1 -> v = normalised logpdfs).
Proof.
  intros float_ float64 normalised. unfold loglik.
  fold float_. fold float64. split.
  - intros Hrun.
    apply bind_returns in Hrun as (kws & w0 & [Hk <-]%lift_returns & Hrun).
    apply bind_returns in Hrun as (pred & w1 & Hp & Hrun).
    apply bind_returns in Hrun as (lp & w2 & Hl & [= <- <-]).
    exists kws, pred, w1, lp. repeat split; try assumption.
    + intros Hn. apply Z.ltb_lt in Hn. now rewrite Hn.
    + intros Hn. apply Z.ltb_ge in Hn. now rewrite Hn.
  - intros (kws & pred & w1 & lp & Hk & Hp & Hl & Hgt & Hle).
    rewrite (bind_Ok _ _ w w kws) by (now apply lift_returns).
    rewrite (bind_Ok _ _ _ _ _ Hp), (bind_Ok _ _ _ _ _ Hl).
    unfold ret. f_equal. f_equal.
    destruct (1 <? n) eqn:En.
    + apply Z.ltb_lt in En. now rewrite (Hgt En).
    + apply Z.ltb_ge in En. now rewrite (Hle En).
Qed.

Lemma elbo_returns (model : Model) (xc yc xt yt : pyval) (n : Z)
    (normalise subsume_context : bool) (kw_args : kwargs) (w w' : world)
    (v : pyval) :
  let float_ := B_dtype_float yt in
  let float64 := B_promote_dtypes float_ np_float64 in
  let xt' := if subsume_context then B_concat xc xt (-1) else xt in
  let yt' := if subsume_context then B_concat yc yt (-1) else yt in
  elbo model xc yc xt yt n normalise subsume_context kw_args w = (Ok v, w') <->
  exists logpdfs kl,
    elbo_terms model float_ float64 xc yc xt' yt' n kw_args w logpdfs kl w' /\
    v = if normalise
        then py_div (py_sub (B_mean logpdfs 0) kl) (B_shape xt' (-1))
        else py_sub (B_mean logpdfs 0) kl.
Proof.
  intros float_ float64 xt' yt'. unfold elbo, elbo_terms.
  fold float_. fold float64.
  replace (if subsume_context
           then (B_concat xc xt (-1), B_concat yc yt (-1)) else (xt, yt))
    with (xt', yt') by (subst xt' yt'; now destruct subsume_context).
  cbv zeta. split.
  - intros Hrun.
    apply bind_returns in Hrun as (kws & w0 & [Hk <-]%lift_returns & Hrun).
    apply bind_returns in Hrun as ([[xz pz] h] & w1 & Hp & Hrun).
    apply bind_returns in Hrun as (kws' & w0 & [Hk' <-]%lift_returns & Hrun).
    apply bind_returns in Hrun as (qz & w2 & Hq & Hrun).
    apply bind_returns in Hrun as (z & w3 & Hz & Hrun).
    apply bind_returns in Hrun as (kws'' & w0 & [Hk'' <-]%lift_returns & Hrun).
    apply bind_returns in Hrun as ([xz' d] & w4 & Hd & Hrun).
    apply bind_returns in Hrun as (lp & w5 & Hl & Hrun).
    apply bind_returns in Hrun as (klv & w6 & Hkl & [= <- <-]).
    assert (kws' = kws) as -> by congruence.
    assert (kws'' = kws) as -> by congruence.
    exists lp, klv. split; [|reflexivity].
    exists kws, xz, pz, h, qz, z, xz', d, w1, w2, w3, w4, w5.
    repeat split; assumption.
  - intros (lp & klv & (kws & xz & pz & h & qz & z & xz' & d & w1 & w2 & w3
                        & w4 & w5 & Hk & Hp & Hq & Hz & Hd & Hl & Hkl) & ->).
    rewrite (bind_Ok _ _ w w kws) by (now apply lift_returns).
    rewrite (bind_Ok _ _ _ _ _ Hp). cbv beta iota.
    rewrite (bind_Ok _ _ w1 w1 kws) by (now apply lift_returns).
    rewrite (bind_Ok _ _ _ _ _ Hq), (bind_Ok _ _ _ _ _ Hz).
    rewrite (bind_Ok _ _ w3 w3 kws) by (now apply lift_returns).
    rewrite (bind_Ok _ _ _ _ _ Hd). cbv beta iota.
    rewrite (bind_Ok _ _ _ _ _ Hl), (bind_Ok _ _ _ _ _ Hkl).
    reflexivity.
Qed.

(** C7.  Without normalisation, [elbo] returns exactly when the steps
    up to the two terms return, and its value is then the mean over
    axis 0 of the decoded distribution's log-density at [yt] (in the
    promoted precision) minus [_kl(qz, pz)]: the divergence is the value
    of the one call of [_kl], made after the log-density, and it is
    subtracted from the mean, not averaged with it. *)
Theorem elbo_unnormalised (model : Model) (xc yc xt yt : pyval) (n : Z)
    (subsume_context : bool) (kw_args : kwargs) (w w' : world) (v : pyval) :
  let float_ := B_dtype_float yt in
  let float64 := B_promote_dtypes float_ np_float64 in
  let xt' := if subsume_context then B_concat xc xt (-1) else xt in
  let yt' := if subsume_context then B_concat yc yt (-1) else yt in
  elbo model xc yc xt yt n false subsume_context kw_args w = (Ok v, w') <->
  exists logpdfs kl,
    elbo_terms model float_ float64 xc yc xt' yt' n kw_args w logpdfs kl w' /\
    v = py_sub (B_mean logpdfs 0) kl.
Proof.
  intros float_ float64 xt' yt'.
  apply (elbo_returns model xc yc xt yt n false).
Qed.

(** C5, as the code has it.  With [normalise=True], [elbo] returns the
    unnormalised value divided by the size of the last axis of the
    target inputs the bound was computed on: the caller's [xt] when
    [subsume_context] is false, and [concat(xc, xt, axis=-1)], context
    points included, when it is true. *)
Theorem elbo_normalised (model : Model) (xc yc xt yt : pyval) (n : Z)
    (subsume_context : bool) (kw_args : kwargs) (w w' : world) (v : pyval) :
  elbo model xc yc xt yt n true subsume_context kw_args w = (Ok v, w') <->
  exists u,
    elbo model xc yc xt yt n false subsume_context kw_args w = (Ok u, w') /\
    v = py_div u
          (B_shape (if subsume_context then B_concat xc xt (-1) else xt) (-1)).
Proof.
  rewrite elbo_returns. split.
  - intros (lp & klv & Ht & ->). eexists. split; [|reflexivity].
    apply elbo_returns. exists lp, klv. split; [exact Ht | reflexivity].
  - intros (u & (lp & klv & Ht & ->)%elbo_returns & ->).
    exists lp, klv. split; [exact Ht | reflexivity].
Qed.
End Objectives.

(** ** [B.epsilon] is written by the loop of [predict] only *)

Section Frame.
Context `{Externals}.

(** Induction on values that goes through the branches of a
    [Parallel]. *)
Lemma pyval_nested_ind (P : pyval -> Prop) :
  P VNone ->
  (forall b, P (VBool b)) ->
  (forall n, P (VInt n)) ->
  (forall o, P (VObj o)) ->
  (forall d, P (VDist d)) ->
  (forall xs, Forall P xs -> P (VParallel xs)) ->
  (forall x aux_t, P x -> P aux_t -> P (VAugmentedInput x aux_t)) ->
  forall v, P v.
Proof.
  intros HNone HBool HInt HObj HDist HPar HAug.
  fix IH 1. intros [ | b | n | o | d | xs | x aux_t].
  - exact HNone.
  - apply HBool.
  - apply HInt.
  - apply HObj.
  - apply HDist.
  - apply HPar. induction xs as [|x xs IHxs]; constructor; [apply IH | exact IHxs].
  - apply HAug; apply IH.
Qed.

Lemma keeps_ret {A} (a : A) : keeps_epsilon (ret a).
Proof. intros w. reflexivity. Qed.

Lemma keeps_raise {A} c msg : keeps_epsilon (raise (A:=A) c msg).
Proof. intros w. reflexivity. Qed.

Lemma keeps_lift {A} (r : result A) : keeps_epsilon (lift r).
Proof. intros w. reflexivity. Qed.

Lemma keeps_call {A} (f : Ext A) : keeps_epsilon (call f).
Proof. intros w. unfold call. now destruct (f (B_epsilon w) (ext w)). Qed.

Lemma keeps_bind {A B} (m : M A) (k : A -> M B) :
  keeps_epsilon m -> (forall a, keeps_epsilon (k a)) -> keeps_epsilon (bind m k).
Proof.
  intros Hm Hk w. unfold bind. specialize (Hm w).
  destruct (m w) as [[a|e] w1]; simpl in *; [|exact Hm].
  now rewrite Hk.
Qed.

Lemma keeps_mapM {A B} (f : A -> M B) (xs : list A) :
  Forall (fun x => keeps_epsilon (f x)) xs -> keeps_epsilon (mapM f xs).
Proof.
  induction 1 as [|x xs Hx _ IH]; simpl; [apply keeps_ret|].
  apply keeps_bind; [exact Hx|]. intros y.
  apply keeps_bind; [exact IH|]. intros ys. apply keeps_ret.
Qed.

Lemma keeps_let_pair {A B C} (r : A * B) (k : A -> B -> M C) :
  (forall a b, keeps_epsilon (k a b)) -> keeps_epsilon (let '(a, b) := r in k a b).
Proof. intros Hk. now destruct r. Qed.

Create HintDb frame.
Hint Resolve keeps_ret keeps_raise keeps_lift keeps_call : frame.

Lemma keeps_sample (x num : pyval) : keeps_epsilon (_sample x num).
Proof.
  induction x as [ | b | n | o | d | xs IH | x IHx aux_t IHaux]
    using pyval_nested_ind;
    simpl; unfold no_method; auto with frame.
  apply keeps_bind; [now apply keeps_mapM | auto with frame].
Qed.

Lemma keeps_Model_call self xc yc xt num_samples aux_t dtype_enc_sample kw_args :
  keeps_epsilon
    (Model_call self xc yc xt num_samples aux_t dtype_enc_sample kw_args).
Proof.
  intros w. rewrite Model_call_unfold. revert w.
  apply keeps_bind; [auto with frame|]. intros r.
  apply keeps_bind; [apply keeps_sample|]. intros z.
  apply keeps_bind; auto with frame.
Qed.

Lemma keeps_Model_call_kw self xc yc xt kws :
  keeps_epsilon (Model_call_kw self xc yc xt kws).
Proof.
  unfold Model_call_kw. destruct (bound_twice positional_names kws).
  - apply keeps_raise.
  - apply keeps_Model_call.
Qed.

Lemma keeps_attr_mean v : keeps_epsilon (attr_mean v).
Proof. destruct v; simpl; unfold no_attribute; auto with frame. Qed.

Lemma keeps_attr_var v : keeps_epsilon (attr_var v).
Proof. destruct v; simpl; unfold no_attribute; auto with frame. Qed.

Lemma keeps_method_sample v : keeps_epsilon (method_sample v).
Proof. destruct v; simpl; unfold no_attribute; auto with frame. Qed.

Lemma keeps_load_global G name : keeps_epsilon (load_global G name).
Proof. unfold load_global. destruct (G !! name); auto with frame. Qed.

Hint Resolve keeps_Model_call_kw keeps_attr_mean keeps_attr_var
  keeps_load_global : frame.

Ltac frame_steps :=
  repeat lazymatch goal with
    | |- keeps_epsilon (bind _ _) =>
        apply keeps_bind; [solve [auto with frame] | intros ?]
    end;
  solve [auto with frame].

Lemma keeps_predict_marginals model xc yc xt pred_num_samples :
  keeps_epsilon (predict_marginals model xc yc xt pred_num_samples).
Proof.
  unfold predict_marginals.
  frame_steps.
Qed.

Lemma keeps_predict_noiseless G model num_samples :
  keeps_epsilon (predict_noiseless G model num_samples).
Proof.
  unfold predict_noiseless.
  frame_steps.
Qed.

(** The epsilon in force is unchanged by one call of [sample]. *)
Lemma method_sample_epsilon v w r w1 :
  method_sample v w = (r, w1) -> B_epsilon w1 = B_epsilon w.
Proof. intros E. pose proof (keeps_method_sample v w) as K. now rewrite E in K. Qed.
End Frame.

(** ** The retry loop of [predict] *)

Section Predict.
Context `{Externals}.

(** One pass through the body of the loop, [B.epsilon] being read
    where the pass starts. *)
Lemma predict_loop_pass (fuel : nat) (pn : pyval) (eb : float) (w : world) :
  predict_loop (S fuel) pn eb w =
  match method_sample pn w with
  | (Ok samples, w1) => Some (Ok samples, w1)
  | (Raise e, w1) =>
      if is_Exception (exn_class e) then
        if above_ceiling (escalate (B_epsilon w))
        then Some (Raise e, set_epsilon eb w1)
        else predict_loop fuel pn eb (set_epsilon (escalate (B_epsilon w)) w1)
      else Some (Raise e, w1)
  end.
Proof.
  simpl. destruct (method_sample pn w) as [[s|e] w1] eqn:E; [reflexivity|].
  apply method_sample_epsilon in E. cbn [set_epsilon B_epsilon ext].
  now rewrite E.
Qed.




(** One pass that fails with an [Exception]: round again with the
    product, or out with the reset. *)
Lemma predict_loop_retry (fuel : nat) (pn : pyval) (eb : float)
    (w w1 : world) (e : exn) :
  method_sample pn w = (Raise e, w1) ->
  is_Exception (exn_class e) = true ->
  above_ceiling (escalate (B_epsilon w)) = false ->
  predict_loop (S fuel) pn eb w
  = predict_loop fuel pn eb (set_epsilon (escalate (B_epsilon w)) w1).
Proof. intros Hs He Hc. now rewrite predict_loop_pass, Hs, He, Hc. Qed.

Lemma predict_loop_gives_up (fuel : nat) (pn : pyval) (eb : float)
    (w w1 : world) (e : exn) :
  method_sample pn w = (Raise e, w1) ->
  is_Exception (exn_class e) = true ->
  above_ceiling (escalate (B_epsilon w)) = true ->
  predict_loop (S fuel) pn eb w = Some (Raise e, set_epsilon eb w1).
Proof. intros Hs He Hc. now rewrite predict_loop_pass, Hs, He, Hc. Qed.

(** C10.  The handler of the loop is [except Exception]: it takes every
    exception but the four classes outside [Exception].  Whatever the
    class of an [Exception] that [sample] raises (a numerical failure, a
    [TypeError], an [AttributeError], ...), the pass multiplies
    [B.epsilon] by 10 and calls [sample] again at the product, unless
    the product is greater than 1e-3, in which case it resets
    [B.epsilon] and raises that exception again.  Hence an [Exception]
    leaves the loop only from a pass whose product exceeded 1e-3; and
    from [B.epsilon = 1e-6], with a [sample] that keeps raising
    exceptions of class [Exception], of whatever kind, three passes do
    not leave the loop and the fourth, at 1e-3, raises its exception
    again. *)
Theorem predict_loop_catches_Exception (pn : pyval) (eb : float) :
  (forall c, is_Exception c = false <->
             c = BaseException \/ c = KeyboardInterrupt \/
             c = SystemExit \/ c = GeneratorExit) /\
  (forall fuel w e w1,
      method_sample pn w = (Raise e, w1) ->
      is_Exception (exn_class e) = true ->
      predict_loop (S fuel) pn eb w =
      if PrimFloat.ltb 1e-3 (PrimFloat.mul (B_epsilon w) 10)
      then Some (Raise e, set_epsilon eb w1)
      else predict_loop fuel pn eb
             (set_epsilon (PrimFloat.mul (B_epsilon w) 10) w1)) /\
  (forall fuel w e w',
      predict_loop fuel pn eb w = Some (Raise e, w') ->
      is_Exception (exn_class e) = true ->
      exists wk wk',
        method_sample pn wk = (Raise e, wk') /\
        PrimFloat.ltb 1e-3 (PrimFloat.mul (B_epsilon wk) 10) = true /\
        w' = set_epsilon eb wk') /\
  (forall w,
      B_epsilon w = 1e-6%float ->
      (forall w1, exists e w2,
          method_sample pn w1 = (Raise e, w2) /\
          is_Exception (exn_class e) = true) ->
      predict_loop 3 pn eb w = None /\
      exists e wk wk',
        method_sample pn wk = (Raise e, wk') /\
        B_epsilon wk = 1e-3%float /\
        predict_loop 4 pn eb w = Some (Raise e, set_epsilon eb wk')).
Proof.
  split; [|split; [|split]].
  - intros c. split.
    + destruct c; simpl; intros; try discriminate; tauto.
    + intros [-> | [-> | [-> | ->]]]; reflexivity.
  - intros fuel w e w1 Hs He. rewrite predict_loop_pass, Hs, He. reflexivity.
  - induction fuel as [|fuel IH]; intros w e w' Hrun He; [discriminate|].
    rewrite predict_loop_pass in Hrun.
    destruct (method_sample pn w) as [[s|e1] w1] eqn:Es; [discriminate|].
    destruct (is_Exception (exn_class e1)) eqn:E1.
    + destruct (above_ceiling (escalate (B_epsilon w))) eqn:Ec.
      * injection Hrun as -> <-. exists w, w1. auto.
      * eapply IH; eauto.
    + injection Hrun as -> <-. congruence.
  - intros w Hw Hfails.
    destruct (Hfails w) as (e0 & w1 & S0 & E0).
    set (wa := set_epsilon (escalate (B_epsilon w)) w1).
    destruct (Hfails wa) as (e1 & w2 & S1 & E1).
    set (wb := set_epsilon (escalate (B_epsilon wa)) w2).
    destruct (Hfails wb) as (e2 & w3 & S2 & E2).
    set (wc := set_epsilon (escalate (B_epsilon wb)) w3).
    destruct (Hfails wc) as (e3 & w4 & S3 & E3).
    assert (Ha : B_epsilon wa = escalate 1e-6)
      by (subst wa; cbn [set_epsilon B_epsilon]; now rewrite Hw).
    assert (Hb : B_epsilon wb = escalate (escalate 1e-6))
      by (subst wb; cbn [set_epsilon B_epsilon]; now rewrite Ha).
    assert (Hc : B_epsilon wc = escalate (escalate (escalate 1e-6)))
      by (subst wc; cbn [set_epsilon B_epsilon]; now rewrite Hb).
    assert (Hthree : forall fuel,
      predict_loop (3 + fuel) pn eb w = predict_loop fuel pn eb wc).
    { intros fuel. cbn [Nat.add].
      rewrite (predict_loop_retry _ _ _ _ _ _ S0 E0)
        by (rewrite Hw; reflexivity). fold wa.
      rewrite (predict_loop_retry _ _ _ _ _ _ S1 E1)
        by (rewrite Ha; reflexivity). fold wb.
      rewrite (predict_loop_retry _ _ _ _ _ _ S2 E2)
        by (rewrite Hb; reflexivity). reflexivity. }
    split; [exact (Hthree 0%nat)|].
    exists e3, wc, w4. split; [exact S3|]. split; [now rewrite Hc|].
    change 4%nat with (3 + 1)%nat. rewrite Hthree.
    apply predict_loop_gives_up; [exact S3 | exact E3 |].
    rewrite Hc. reflexivity.
Qed.

(** The three ways a pass on a distribution can go. *)
Lemma pass_returns fuel d eb eps x v x' :
  dist_sample d None eps x = (Ok v, x') ->
  predict_loop (S fuel) (VDist d) eb {| B_epsilon := eps; ext := x |}
    = Some (Ok v, {| B_epsilon := eps; ext := x' |}).
Proof. intros E. simpl. unfold call. simpl. now rewrite E. Qed.

Lemma pass_escalates fuel d eb eps x e x' :
  dist_sample d None eps x = (Raise e, x') ->
  is_Exception (exn_class e) = true ->
  above_ceiling (escalate eps) = false ->
  predict_loop (S fuel) (VDist d) eb {| B_epsilon := eps; ext := x |}
    = predict_loop fuel (VDist d) eb {| B_epsilon := escalate eps; ext := x' |}.
Proof.
  intros E He Hc. simpl. unfold call. simpl. rewrite E, He. simpl.
  now rewrite Hc.
Qed.

Lemma pass_gives_up fuel d eb eps x e x' :
  dist_sample d None eps x = (Raise e, x') ->
  is_Exception (exn_class e) = true ->
  above_ceiling (escalate eps) = true ->
  predict_loop (S fuel) (VDist d) eb {| B_epsilon := eps; ext := x |}
    = Some (Raise e, {| B_epsilon := eb; ext := x' |}).
Proof.
  intros E He Hc. simpl. unfold call. simpl. rewrite E, He. simpl.
  now rewrite Hc.
Qed.
End Predict.

Section FromTestConfiguration.
Context `{Externals}.

(** The values [B.epsilon] takes from [1e-6] on, in binary64: the
    second product is one unit in the last place below [1e-4], the
    third is [1e-3] itself, the fourth is the first above the
    ceiling. *)
Lemma escalations_from_1e6 :
  escalate 1e-6 = 0x1.4f8b588e368f0p-17%float /\
  escalate (escalate 1e-6) = 0x1.a36e2eb1c432cp-14%float /\
  1e-4%float = 0x1.a36e2eb1c432dp-14%float /\
  PrimFloat.ltb (escalate (escalate 1e-6)) 1e-4 = true /\
  escalate (escalate (escalate 1e-6)) = 1e-3%float /\
  above_ceiling (escalate (escalate (escalate 1e-6))) = false /\
  above_ceiling (escalate (escalate (escalate (escalate 1e-6)))) = true.
Proof. repeat split; reflexivity. Qed.

(** C4, as the code has it.  From [B.epsilon = 1e-6], with a sampler
    that fails while the regularisation is below [1e-4] and succeeds at
    or above it, the loop returns samples on its fourth pass, after
    exactly 3 escalations by a factor of 10 (two are not enough: the
    second product is below [1e-4] in binary64), sampling at [1e-3].
    With a sampler that always fails, the loop makes four passes, the
    last one at [1e-3], which does not exceed the ceiling; the fourth
    escalation does, and the failure of the fourth pass is raised again
    with [B.epsilon] reset. *)
Theorem predict_loop_from_1e6 (d : adist) (w : world) :
  B_epsilon w = 1e-6%float ->
  ((forall eps x, PrimFloat.ltb eps 1e-4 = true ->
      exists e x', dist_sample d None eps x = (Raise e, x') /\
                   is_Exception (exn_class e) = true) ->
   (forall eps x, PrimFloat.leb 1e-4 eps = true ->
      exists v x', dist_sample d None eps x = (Ok v, x')) ->
   predict_loop 3 (VDist d) 1e-6 w = None /\
   exists samples w',
     predict_loop 4 (VDist d) 1e-6 w = Some (Ok samples, w') /\
     B_epsilon w' = escalate (escalate (escalate 1e-6)) /\
     predict_sampling 4 (VDist d) w = Some (Ok samples, set_epsilon 1e-6 w')) /\
  ((forall eps x,
      exists e x', dist_sample d None eps x = (Raise e, x') /\
                   is_Exception (exn_class e) = true) ->
   predict_loop 3 (VDist d) 1e-6 w = None /\
   exists e w3 w4,
     B_epsilon w3 = escalate (escalate (escalate 1e-6)) /\
     above_ceiling (B_epsilon w3) = false /\
     method_sample (VDist d) w3 = (Raise e, w4) /\
     above_ceiling (escalate (B_epsilon w3)) = true /\
     predict_sampling 4 (VDist d) w = Some (Raise e, set_epsilon 1e-6 w4)).
Proof.
  destruct w as [eps0 x0]. simpl. intros ->. split.
  - intros Hbelow Hatleast.
    destruct (Hbelow 1e-6%float x0 eq_refl) as (e0 & x1 & S0 & E0).
    destruct (Hbelow (escalate 1e-6) x1 eq_refl) as (e1 & x2 & S1 & E1).
    destruct (Hbelow (escalate (escalate 1e-6)) x2 eq_refl)
      as (e2 & x3 & S2 & E2).
    destruct (Hatleast (escalate (escalate (escalate 1e-6))) x3 eq_refl)
      as (v & x4 & S3).
    assert (Hthree : forall fuel,
      predict_loop (3 + fuel) (VDist d) 1e-6 {| B_epsilon := 1e-6; ext := x0 |}
      = predict_loop fuel (VDist d) 1e-6
          {| B_epsilon := escalate (escalate (escalate 1e-6)); ext := x3 |}).
    { intros fuel. cbn [Nat.add].
      rewrite (pass_escalates _ _ _ _ _ _ _ S0 E0 eq_refl).
      rewrite (pass_escalates _ _ _ _ _ _ _ S1 E1 eq_refl).
      now rewrite (pass_escalates _ _ _ _ _ _ _ S2 E2 eq_refl). }
    split; [exact (Hthree 0%nat)|].
    exists v, {| B_epsilon := escalate (escalate (escalate 1e-6)); ext := x4 |}.
    assert (Hfour :
      predict_loop 4 (VDist d) 1e-6 {| B_epsilon := 1e-6; ext := x0 |}
      = Some (Ok v, {| B_epsilon := escalate (escalate (escalate 1e-6));
                       ext := x4 |})).
    { change 4%nat with (3 + 1)%nat. rewrite (Hthree 1%nat).
      now apply pass_returns. }
    split; [exact Hfour|]. split; [reflexivity|].
    unfold predict_sampling. cbn [B_epsilon]. now rewrite Hfour.
  - intros Hfails.
    destruct (Hfails 1e-6%float x0) as (e0 & x1 & S0 & E0).
    destruct (Hfails (escalate 1e-6) x1) as (e1 & x2 & S1 & E1).
    destruct (Hfails (escalate (escalate 1e-6)) x2) as (e2 & x3 & S2 & E2).
    destruct (Hfails (escalate (escalate (escalate 1e-6))) x3)
      as (e3 & x4 & S3 & E3).
    assert (Hthree : forall fuel,
      predict_loop (3 + fuel) (VDist d) 1e-6 {| B_epsilon := 1e-6; ext := x0 |}
      = predict_loop fuel (VDist d) 1e-6
          {| B_epsilon := escalate (escalate (escalate 1e-6)); ext := x3 |}).
    { intros fuel. cbn [Nat.add].
      rewrite (pass_escalates _ _ _ _ _ _ _ S0 E0 eq_refl).
      rewrite (pass_escalates _ _ _ _ _ _ _ S1 E1 eq_refl).
      now rewrite (pass_escalates _ _ _ _ _ _ _ S2 E2 eq_refl). }
    split; [exact (Hthree 0%nat)|].
    exists e3, {| B_epsilon := escalate (escalate (escalate 1e-6)); ext := x3 |},
           {| B_epsilon := escalate (escalate (escalate 1e-6)); ext := x4 |}.
    split; [reflexivity|]. split; [reflexivity|]. split.
    { simpl. unfold call. simpl. now rewrite S3. }
    split; [reflexivity|].
    unfold predict_sampling. cbn [B_epsilon].
    change 4%nat with (3 + 1)%nat. rewrite (Hthree 1%nat).
    now rewrite (pass_gives_up _ _ _ _ _ _ _ S3 E3 eq_refl).
Qed.

Lemma module_globals_unbound (binding : string -> pyval) (name : string) :
  name ∉ (module_names ++ builtin_names)%list ->
  module_globals binding !! name = None.
Proof.
  intros Hname. unfold module_globals. apply not_elem_of_list_to_map_1.
  rewrite <- list_fmap_compose.
  replace ((fst ∘ (fun name => (name, binding name)))
             <$> (module_names ++ builtin_names)%list)
    with (module_names ++ builtin_names)%list; [exact Hname|].
  generalize (module_names ++ builtin_names)%list as names.
  induction names as [|name' names IH]; [reflexivity|].
  rewrite fmap_cons. simpl. now rewrite <- IH.
Qed.

Lemma batch_unbound (binding : string -> pyval) :
  module_globals binding !! "batch" = None.
Proof.
  apply module_globals_unbound.
  refine (bool_decide_unpack _ _). vm_compute. exact I.
Qed.

(** C1, on the code.  With the globals the module has, the second call
    of the model is never made: once the marginal statistics are
    computed, evaluating its first argument [batch["xc"]] raises
    [NameError], and [predict] returns no triple for any input. *)
Theorem predict_unbound_batch (binding : string -> pyval) (fuel : nat)
    (model : Model) (xc yc xt : pyval) (pred_num_samples num_samples : Z)
    (w : world) :
  (forall mv w1,
      predict_marginals model xc yc xt pred_num_samples w = (Ok mv, w1) ->
      predict (module_globals binding) fuel model xc yc xt
              pred_num_samples num_samples w
      = Some (Raise {| exn_class := NameError;
                       exn_msg := "name 'batch' is not defined" |}, w1)) /\
  (forall r w',
      predict (module_globals binding) fuel model xc yc xt
              pred_num_samples num_samples w
      <> Some (Ok r, w')).
Proof.
  assert (Hsecond : forall w1,
    predict_noiseless (module_globals binding) model num_samples w1
    = (Raise {| exn_class := NameError;
                exn_msg := "name 'batch' is not defined" |}, w1)).
  { intros w1. unfold predict_noiseless, bind, load_global.
    now rewrite batch_unbound. }
  split.
  - intros [mean var] w1 Hm. unfold predict. now rewrite Hm, Hsecond.
  - intros r w'. unfold predict.
    destruct (predict_marginals model xc yc xt pred_num_samples w)
      as [[[mean var]|e] w1]; [|discriminate].
    rewrite Hsecond. discriminate.
Qed.
End FromTestConfiguration.

(** ** Comparisons of binary64 values *)

Lemma SFcompare_Lt_antisym (a b : spec_float) :
  SFcompare a b = Some Lt -> SFcompare b a = Some Gt.
Proof.
  destruct a as [sa|sa| |sa ma ea], b as [sb|sb| |sb mb eb]; simpl;
    try discriminate;
    try (destruct sa; simpl; congruence);
    try (destruct sb; simpl; congruence);
    try (destruct sa, sb; simpl; congruence).
  rewrite (Z.compare_antisym ea eb).
  change (Pos.compare_cont Eq mb ma) with (Pos.compare mb ma).
  change (Pos.compare_cont Eq ma mb) with (Pos.compare ma mb).
  rewrite (Pos.compare_antisym ma mb).
  destruct sa, sb; try congruence;
    destruct (ea ?= eb)%Z; simpl; try congruence;
    destruct (ma ?= mb)%positive; simpl; congruence.
Qed.

(** [x < y] excludes [y <= x]. *)
Lemma ltb_not_leb (x y : float) :
  PrimFloat.ltb x y = true -> PrimFloat.leb y x = false.
Proof.
  rewrite ltb_spec, leb_spec. unfold SFltb, SFleb.
  destruct (SFcompare (Prim2SF x) (Prim2SF y)) as [[ | | ]|] eqn:E;
    try discriminate.
  intros _. now rewrite (SFcompare_Lt_antisym _ _ E).
Qed.

(** * Runs on the small instance *)

Module Runs.
Import Toy.

(** Two branches sampled three times each: two elements, of three
    draws each, the state counting two calls. *)
Lemma sample_Parallel_mirrors_witness :
  exists ys,
    VParallel [tensor [0; 0; 0]%Q; tensor [1; 1; 1]%Q] = VParallel ys /\
    mapM_run (fun xi => _sample xi (VInt 3)) [g0; g1] w0 ys
             {| B_epsilon := 1e-6; ext := 2%nat |}.
Proof.
  apply (proj1 (proj1 (sample_Parallel_mirrors [g0; g1] 3 w0) _ _)).
  vm_compute. reflexivity.
Defined.

Lemma kl_Parallel_zip_witness :
  length (zip [g1; g2] [g0; g1]) = length [g1; g2].
Proof.
  apply (proj1 (proj2 (proj2 (kl_Parallel_zip [g1; g2] [g0; g1] w0)))).
  reflexivity.
Defined.

(** Two branches against one: no error, the divergence of the first
    pair is returned and the second branch of [q] is ignored. *)
Lemma kl_mismatch_returns :
  length [g1; g2] <> length [g0] /\
  _kl (VParallel [g1; g2]) (VParallel [g0]) w0 = (Ok (tensor [1 # 2]), w0).
Proof. split; [discriminate | vm_compute; reflexivity]. Qed.

Lemma Model_call_options_witness :
  delete "noiseless" options !! "dtype_lik" = options !! "dtype_lik".
Proof.
  apply (proj1 (proj2 (Model_call_options unit_model xc5 yc5 xt7
                         (VInt 1) VNone VNone options w0))).
  discriminate.
Defined.

(** The end-to-end scenario of the specification: seven targets, one
    sample, a unit Gaussian whatever the input. *)
Lemma loglik_collapse_witness :
  loglik unit_model xc5 yc5 xt7 yt7 1 true ∅ w0
  = (Ok (tensor [- (1 # 2)]%Q), {| B_epsilon := 1e-6; ext := 1%nat |}).
Proof.
  apply (proj2 (loglik_collapse unit_model xc5 yc5 xt7 yt7 1 true ∅ w0 _ _)).
  eexists _, _, _, _.
  split; [vm_compute; reflexivity|].
  split; [vm_compute; reflexivity|].
  split; [vm_compute; reflexivity|].
  split; [lia | intros _; vm_compute; reflexivity].
Defined.

Lemma elbo_unnormalised_witness :
  elbo unit_model xc5 yc5 xt7 yt7 1 false true ∅ w0
  = (Ok (tensor [- (11 # 2)]%Q), {| B_epsilon := 1e-6; ext := 1%nat |}).
Proof.
  apply (proj2 (elbo_unnormalised unit_model xc5 yc5 xt7 yt7 1 true ∅ w0 _ _)).
  eexists _, _. split.
  - unfold elbo_terms. eexists _, _, _, _, _, _, _, _, _, _, _, _, _.
    repeat (split; [vm_compute; reflexivity|]). vm_compute. reflexivity.
  - vm_compute. reflexivity.
Defined.

Lemma elbo_normalised_witness :
  exists u,
    elbo unit_model xc5 yc5 xt7 yt7 1 false true ∅ w0
    = (Ok u, {| B_epsilon := 1e-6; ext := 1%nat |}) /\
    tensor [- (11 # 24)]%Q = py_div u (B_shape (B_concat xc5 xt7 (-1)) (-1)).
Proof.
  apply (proj1 (elbo_normalised unit_model xc5 yc5 xt7 yt7 1 true ∅ w0 _ _)).
  vm_compute. reflexivity.
Defined.

(** Five context points subsumed into seven targets: the bound is
    divided by 12, not by the 7 columns of the caller's [xt]. *)
Lemma elbo_divides_by_subsumed_size :
  B_shape xt7 (-1) = VInt 7 /\
  B_shape (B_concat xc5 xt7 (-1)) (-1) = VInt 12 /\
  elbo unit_model xc5 yc5 xt7 yt7 1 false true ∅ w0
  = (Ok (tensor [- (11 # 2)]%Q), {| B_epsilon := 1e-6; ext := 1%nat |}) /\
  elbo unit_model xc5 yc5 xt7 yt7 1 true true ∅ w0
  = (Ok (tensor [- (11 # 24)]%Q), {| B_epsilon := 1e-6; ext := 1%nat |}) /\
  py_div (tensor [- (11 # 2)]%Q) (B_shape xt7 (-1)) = tensor [- (11 # 14)]%Q /\
  tensor [- (11 # 24)]%Q <> tensor [- (11 # 14)]%Q.
Proof.
  repeat split; try (vm_compute; reflexivity). vm_compute. discriminate.
Qed.

(** An exception outside [Exception] is not handled by the loop: it
    leaves [predict] at once, with the value the escalation before it
    had set. *)
Remark interrupt_passes_through :
  predict_sampling 4 (VDist Interrupted) w0
  = Some (Raise {| exn_class := KeyboardInterrupt; exn_msg := "" |},
          {| B_epsilon := escalate 1e-6; ext := 2%nat |}).
Proof. vm_compute. reflexivity. Qed.


(** The loop needs a positive [B.epsilon] to end: from 0 the product
    stays 0 and a sampler that always fails is called for ever. *)
Remark zero_epsilon_never_leaves (fuel : nat) (calls : nat) :
  predict_loop fuel (VDist (Faulty LinAlgError)) 0%float
               {| B_epsilon := 0%float; ext := calls |} = None.
Proof.
  revert calls. induction fuel as [|fuel IH]; intros calls; [reflexivity|].
  exact (IH (S calls)).
Qed.

Lemma predict_loop_catches_Exception_witness :
  predict_loop 5 (VDist (Faulty TypeError)) 1e-6 w0
  = predict_loop 4 (VDist (Faulty TypeError)) 1e-6
      {| B_epsilon := 0x1.4f8b588e368f0p-17; ext := 1%nat |}.
Proof.
  exact (proj1 (proj2 (predict_loop_catches_Exception
                         (VDist (Faulty TypeError)) 1e-6%float))
           4%nat w0 _ _ eq_refl eq_refl).
Defined.

(** A prediction without a [sample] method, here a [Parallel]: the
    [AttributeError] is escalated four times like a numerical failure
    before it reaches the caller. *)
Example attribute_error_is_retried :
  predict_loop 3 (VParallel [g0]) 1e-6 w0 = None /\
  predict_loop 4 (VParallel [g0]) 1e-6 w0
  = Some (Raise {| exn_class := AttributeError;
                   exn_msg := "object has no attribute 'sample'" |}, w0).
Proof. split; vm_compute; reflexivity. Qed.

Lemma near_singular_below (eps : float) (calls : nat) :
  PrimFloat.ltb eps 1e-4 = true ->
  exists e x',
    dist_sample (NearSingular 1e-4) None eps calls = (Raise e, x') /\
    is_Exception (exn_class e) = true.
Proof. intros Hlt. cbn. rewrite Hlt. eexists _, _. split; reflexivity. Qed.

Lemma near_singular_at_or_above (eps : float) (calls : nat) :
  PrimFloat.leb 1e-4 eps = true ->
  exists v x', dist_sample (NearSingular 1e-4) None eps calls = (Ok v, x').
Proof.
  intros Hle. cbn. destruct (PrimFloat.ltb eps 1e-4) eqn:Hlt.
  - apply ltb_not_leb in Hlt. congruence.
  - eexists _, _. reflexivity.
Qed.

Lemma predict_loop_from_1e6_witness :
  (predict_loop 3 (VDist (NearSingular 1e-4)) 1e-6 w0 = None /\
   exists samples w',
     predict_loop 4 (VDist (NearSingular 1e-4)) 1e-6 w0
     = Some (Ok samples, w') /\
     B_epsilon w' = escalate (escalate (escalate 1e-6)) /\
     predict_sampling 4 (VDist (NearSingular 1e-4)) w0
     = Some (Ok samples, set_epsilon 1e-6 w')) /\
  (predict_loop 3 (VDist (Faulty LinAlgError)) 1e-6 w0 = None /\
   exists e w3 w4,
     B_epsilon w3 = escalate (escalate (escalate 1e-6)) /\
     above_ceiling (B_epsilon w3) = false /\
     method_sample (VDist (Faulty LinAlgError)) w3 = (Raise e, w4) /\
     above_ceiling (escalate (B_epsilon w3)) = true /\
     predict_sampling 4 (VDist (Faulty LinAlgError)) w0
     = Some (Raise e, set_epsilon 1e-6 w4)).
Proof.
  split.
  - apply (proj1 (@predict_loop_from_1e6 toy_carrier toy (NearSingular 1e-4) w0 eq_refl)).
    + exact near_singular_below.
    + exact near_singular_at_or_above.
  - apply (proj2 (@predict_loop_from_1e6 toy_carrier toy (Faulty LinAlgError) w0 eq_refl)).
    intros eps calls. eexists _, _. split; reflexivity.
Defined.

(** The sampler fails below [1e-4] and succeeds from there on; after
    two escalations [B.epsilon] is still below [1e-4], the third pass
    fails and the loop has not returned; it returns on the fourth pass,
    at [1e-3]. *)
Lemma two_escalations_fall_short :
  (forall eps calls, PrimFloat.ltb eps 1e-4 = true ->
     is_Ok (dist_sample (NearSingular 1e-4) None eps calls).1 = false) /\
  (forall eps calls, PrimFloat.leb 1e-4 eps = true ->
     is_Ok (dist_sample (NearSingular 1e-4) None eps calls).1 = true) /\
  PrimFloat.ltb (escalate (escalate 1e-6)) 1e-4 = true /\
  predict_loop 3 (VDist (NearSingular 1e-4)) 1e-6 w0 = None /\
  predict_loop 4 (VDist (NearSingular 1e-4)) 1e-6 w0
  = Some (Ok (tensor [0%Q]), {| B_epsilon := 1e-3; ext := 4%nat |}).
Proof.
  split; [|split; [|repeat split; vm_compute; reflexivity]].
  - intros eps calls Hlt.
    destruct (near_singular_below eps calls Hlt) as (e & x' & -> & _).
    reflexivity.
  - intros eps calls Hle.
    destruct (near_singular_at_or_above eps calls Hle) as (v & x' & ->).
    reflexivity.
Qed.

Lemma predict_unbound_batch_witness :
  predict (module_globals (fun _ => VNone)) 4 unit_model xc5 yc5 xt7 50 5 w0
  = Some (Raise {| exn_class := NameError;
                   exn_msg := "name 'batch' is not defined" |},
          {| B_epsilon := 1e-6; ext := 1%nat |}).
Proof.
  apply (proj1 (predict_unbound_batch (fun _ => VNone) 4 unit_model
                  xc5 yc5 xt7 50 5 w0) (tensor [0%Q], tensor [1%Q])).
  vm_compute. reflexivity.
Defined.

(** With the three names patched into the globals the same call
    returns a triple. *)
Example predict_with_patched_globals :
  predict patched 4 unit_model xc5 yc5 xt7 50 5 w0
  = Some (Ok (tensor [0%Q], tensor [1%Q], tensor [0%Q]),
          {| B_epsilon := 1e-6; ext := 3%nat |}).
Proof. vm_compute. reflexivity. Qed.
End Runs.

(** * Further properties of the helpers *)

Section Propagation.
Context `{Externals}.

(** A comprehension raises what its first failing element raises, in
    the world that element left; the elements after it are not
    evaluated. *)
Lemma mapM_raises {A B} (f : A -> M B) (pre post : list A) (x : A)
    (ys : list B) (w w1 w2 : world) (e : exn) :
  mapM_run f pre w ys w1 ->
  f x w1 = (Raise e, w2) ->
  mapM f (pre ++ x :: post) w = (Raise e, w2).
Proof.
  induction 1 as [|x0 xs y ys w w1 w1' Hx _ IH]; intros Hf; simpl.
  - now rewrite (bind_Raise _ _ _ _ _ Hf).
  - rewrite (bind_Ok _ _ _ _ _ Hx). now rewrite (bind_Raise _ _ _ _ _ (IH Hf)).
Qed.

Lemma mapM_run_app {A B} (f : A -> M B) xs xs' ys ys' w w1 w2 :
  mapM_run f xs w ys w1 ->
  mapM_run f xs' w1 ys' w2 ->
  mapM_run f (xs ++ xs') w (ys ++ ys') w2.
Proof.
  induction 1 as [|x xs y ys w w1 w1' Hx _ IH]; intros Hr; simpl; [exact Hr|].
  econstructor; [exact Hx|]. now apply IH.
Qed.

Lemma mapM_run_Forall2_with {A B} (f : A -> M B) (R : A -> B -> Prop)
    xs w ys w' :
  mapM_run f xs w ys w' ->
  Forall (fun x => forall y w1 w2, f x w1 = (Ok y, w2) -> R x y) xs ->
  Forall2 R xs ys.
Proof.
  induction 1 as [|x xs y ys w w1 w2 Hx _ IH]; intros HF; [constructor|].
  inversion HF as [|? ? Hhd Htl]; subst.
  constructor; [eapply Hhd; eauto | now apply IH].
Qed.

Lemma sample_Parallel_returns (xs : list pyval) (num : pyval) (w w' : world)
    (r : pyval) :
  _sample (VParallel xs) num w = (Ok r, w') <->
  exists ys, r = VParallel ys /\
             mapM_run (fun xi => _sample xi num) xs w ys w'.
Proof.
  simpl. rewrite bind_returns. split.
  - intros (ys & w1 & Hm & [= <- <-]). exists ys. split; [reflexivity|].
    now apply mapM_returns.
  - intros (ys & -> & Hm). exists ys, w'. split; [|reflexivity].
    now apply mapM_returns.
Qed.

(** X1.  When a branch of a [Parallel] cannot be sampled, [_sample]
    raises the exception of the first such branch, in the world that
    branch left: the branches before it have been sampled, the ones
    after it are not. *)
Theorem sample_raises_first_failure (pre post : list pyval) (x num : pyval)
    (ys : list pyval) (w w1 w2 : world) (e : exn) :
  mapM_run (fun xi => _sample xi num) pre w ys w1 ->
  _sample x num w1 = (Raise e, w2) ->
  _sample (VParallel (pre ++ x :: post)) num w = (Raise e, w2).
Proof.
  intros Hpre Hx. simpl.
  apply bind_Raise. eapply mapM_raises; eauto.
Qed.

(** X2.  Whatever the depth of nesting, a sample has the branch
    structure of what it was drawn from: a [Parallel] for a [Parallel],
    of the same length, branch by branch. *)
Theorem sample_mirrors_structure (x num : pyval) :
  forall (y : pyval) (w w' : world),
    _sample x num w = (Ok y, w') -> mirrors x y.
Proof.
  induction x as [ | b | n | o | d | xs IH | x IHx aux_t IHaux]
    using pyval_nested_ind; intros y w w' Hs;
    try (simpl in Hs; discriminate).
  - constructor.
  - apply sample_Parallel_returns in Hs as (ys & -> & Hrun).
    constructor. eapply mapM_run_Forall2_with; [exact Hrun|].
    eapply Forall_impl; [exact IH|]. intros xi Hxi yi w1 w2. apply Hxi.
Qed.

(** X3.  [_sample] dispatches on [x] alone.  For anything but a
    distribution or a [Parallel] it has no method: the call raises
    plum's lookup error and nothing has been sampled.  [num], given by
    keyword, is not looked at: whatever it is, an integer or not, a
    distribution is asked for [sample(num=num)] with it. *)
Theorem sample_without_method (x num : pyval) (w : world) :
  (samplable x = false ->
   exists e, _sample x num w = (Raise e, w) /\
             exn_class e = NotFoundLookupError) /\
  (forall d, _sample (VDist d) num w = call (dist_sample d (Some num)) w).
Proof.
  split; [|reflexivity].
  destruct x; try discriminate; intros _; simpl; eexists; split; reflexivity.
Qed.

Lemma kl_Parallel_unfold (qs ps : list pyval) (w : world) :
  _kl (VParallel qs) (VParallel ps) w
  = (ks <- mapM (fun qp => _kl qp.1 qp.2) (zip qs ps);;
     ret (py_sum ks (VInt 0))) w.
Proof. simpl. unfold bind. rewrite zipM_zip. reflexivity. Qed.

(** X4.  With a [Parallel] without branches on either side, [_kl]
    returns the integer 0 it seeds the sum with, and no divergence is
    evaluated. *)
Theorem kl_of_empty_Parallel (qs ps : list pyval) (w : world) :
  _kl (VParallel []) (VParallel ps) w = (Ok (VInt 0), w) /\
  _kl (VParallel qs) (VParallel []) w = (Ok (VInt 0), w).
Proof.
  split; [reflexivity|]. rewrite kl_Parallel_unfold.
  now destruct qs.
Qed.

(** X5.  [_kl] has no method for operands of different kinds (a
    distribution against a [Parallel]) or for anything that is neither:
    the call raises plum's lookup error and no divergence is
    evaluated. *)
Theorem kl_without_method (q p : pyval) (w : world) :
  same_kind q p = false ->
  exists e, _kl q p w = (Raise e, w) /\ exn_class e = NotFoundLookupError.
Proof.
  destruct q, p; simpl; try discriminate; intros _; eexists; split; reflexivity.
Qed.

Lemma zip_app_same_length {A B} (xs xs' : list A) (ys ys' : list B) :
  length xs = length ys ->
  zip (xs ++ xs') (ys ++ ys') = (zip xs ys ++ zip xs' ys')%list.
Proof.
  revert ys. induction xs as [|x xs IH]; intros [|y ys] Hlen;
    try discriminate; simpl; [reflexivity|].
  f_equal. apply IH. now injection Hlen.
Qed.

(** X6.  A branch pair appended to two [Parallel]s of equal length adds
    its divergence last: the sum is the earlier sum plus the new
    divergence, evaluated in the world the earlier pairs left. *)
Theorem kl_append_branch (qs ps : list pyval) (q p s k : pyval)
    (w w1 w2 : world) :
  length qs = length ps ->
  _kl (VParallel qs) (VParallel ps) w = (Ok s, w1) ->
  _kl q p w1 = (Ok k, w2) ->
  _kl (VParallel (qs ++ [q])) (VParallel (ps ++ [p])) w = (Ok (py_add s k), w2).
Proof.
  intros Hlen Hs Hk. rewrite kl_Parallel_unfold in *.
  apply bind_returns in Hs as (ks & w1' & Hks & [= <- <-]).
  apply mapM_returns in Hks.
  rewrite (zip_app_same_length _ _ _ _ Hlen). simpl zip.
  assert (Hrun : mapM_run (fun qp => _kl qp.1 qp.2)
                   (zip qs ps ++ [(q, p)]) w (ks ++ [k]) w2).
  { eapply mapM_run_app; [exact Hks|].
    econstructor; [exact Hk | constructor]. }
  apply mapM_returns in Hrun. rewrite (bind_Ok _ _ _ _ _ Hrun).
  unfold ret, py_sum. now rewrite fold_left_app.
Qed.

(** X7.  When the divergence of a branch pair cannot be evaluated,
    [_kl] raises the exception of the first such pair, in the world it
    left; the pairs after it are not evaluated and nothing is summed. *)
Theorem kl_raises_first_failure (qpre qpost ppre ppost ks : list pyval)
    (q p : pyval) (w w1 w2 : world) (e : exn) :
  length qpre = length ppre ->
  mapM_run (fun qp => _kl qp.1 qp.2) (zip qpre ppre) w ks w1 ->
  _kl q p w1 = (Raise e, w2) ->
  _kl (VParallel (qpre ++ q :: qpost)) (VParallel (ppre ++ p :: ppost)) w
  = (Raise e, w2).
Proof.
  intros Hlen Hpre Hq. rewrite kl_Parallel_unfold.
  rewrite (zip_app_same_length _ _ _ _ Hlen). simpl zip.
  apply bind_Raise. eapply mapM_raises; eauto.
Qed.
End Propagation.

(** * Further properties of [Model.__call__] *)

Section Calls.
Context `{Externals}.

(** X8.  [Model.__call__] handles no exception: a failure of the
    encoder, of the sampling or of the decoder leaves the call as it was
    raised, in the world it left, and nothing after it is run; when all
    three return, the call returns the decoder's distribution in the
    world the decoder left. *)
Theorem Model_call_propagates (self : Model) (xc yc xt : pyval)
    (num_samples aux_t dtype_enc_sample : pyval) (kw_args : kwargs) (w : world) :
  let xt' := if is_None aux_t then xt else VAugmentedInput xt aux_t in
  let run := Model_call self xc yc xt num_samples aux_t dtype_enc_sample kw_args in
  let encode := call (code (encoder self) xc yc xt' (delete "noiseless" kw_args)) in
  let decode xz z :=
    call (code (decoder self) xz
            (if truthy dtype_enc_sample then B_cast dtype_enc_sample z else z)
            xt' kw_args) in
  (forall e w1, encode w = (Raise e, w1) -> run w = (Raise e, w1)) /\
  (forall xz pz w1 e w2,
      encode w = (Ok (xz, pz), w1) ->
      _sample pz num_samples w1 = (Raise e, w2) ->
      run w = (Raise e, w2)) /\
  (forall xz pz w1 z w2 e w3,
      encode w = (Ok (xz, pz), w1) ->
      _sample pz num_samples w1 = (Ok z, w2) ->
      decode xz z w2 = (Raise e, w3) ->
      run w = (Raise e, w3)) /\
  (forall xz pz w1 z w2 xz' d w3,
      encode w = (Ok (xz, pz), w1) ->
      _sample pz num_samples w1 = (Ok z, w2) ->
      decode xz z w2 = (Ok (xz', d), w3) ->
      run w = (Ok d, w3)).
Proof.
  intros xt' run encode decode. subst run.
  repeat split; intros; rewrite Model_call_unfold; fold xt'; fold encode.
  - now apply bind_Raise.
  - erewrite bind_Ok by eassumption. now apply bind_Raise.
  - erewrite bind_Ok by eassumption. erewrite bind_Ok by eassumption.
    now apply bind_Raise.
  - erewrite bind_Ok by eassumption. erewrite bind_Ok by eassumption.
    unfold decode in *. cbn [fst snd] in *.
    erewrite bind_Ok by eassumption. reflexivity.
Qed.

Lemma bound_twice_None (params : list string) (kws : kwargs) :
  bound_twice params kws = None <->
  forall name, name ∈ params -> kws !! name = None.
Proof.
  unfold bound_twice. induction params as [|p params IH]; simpl.
  - split; [intros _ name Hin; now apply elem_of_nil in Hin | reflexivity].
  - case_bool_decide as Hp.
    + split; [discriminate|]. intros Hall. exfalso.
      destruct Hp as [v Hv]. rewrite (Hall p) in Hv; [discriminate|].
      constructor.
    + rewrite IH. split.
      * intros Hall name Hin. apply elem_of_cons in Hin as [-> | Hin];
          [|now apply Hall].
        destruct (kws !! p) eqn:E; [|reflexivity]. exfalso. apply Hp. eauto.
      * intros Hall name Hin. apply Hall. now constructor.
Qed.

Lemma bound_twice_Some (params : list string) (kws : kwargs) (name : string) :
  bound_twice params kws = Some name ->
  name ∈ params /\ is_Some (kws !! name).
Proof.
  unfold bound_twice. induction params as [|p params IH]; simpl; [discriminate|].
  case_bool_decide as Hp.
  - intros [= <-]. split; [constructor | exact Hp].
  - intros Hf. destruct (IH Hf) as [Hin Hs]. split; [now constructor | exact Hs].
Qed.

(** Keywords that agree on which parameters they name clash alike. *)
Lemma bound_twice_ext (params : list string) (kws kws' : kwargs) :
  (forall name, name ∈ params ->
                (is_Some (kws !! name) <-> is_Some (kws' !! name))) ->
  bound_twice params kws = bound_twice params kws'.
Proof.
  unfold bound_twice. induction params as [|p params IH]; intros Hagree; simpl;
    [reflexivity|].
  assert (Hp : bool_decide (is_Some (kws !! p))
               = bool_decide (is_Some (kws' !! p))).
  { apply bool_decide_ext, Hagree. constructor. }
  rewrite Hp. destruct (bool_decide (is_Some (kws' !! p))); [reflexivity|].
  apply IH. intros name Hin. apply Hagree. now constructor.
Qed.

(** The three names [Model.__call__] takes for itself. *)
Lemma intercepted_lookup (kws : kwargs) (key : string) :
  let dec_kw :=
    delete "num_samples" (delete "aux_t" (delete "dtype_enc_sample" kws)) in
  dec_kw !! key =
  if bool_decide (key ∈ ["num_samples"; "aux_t"; "dtype_enc_sample"])
  then None else kws !! key.
Proof.
  cbv zeta. rewrite !lookup_delete.
  case_bool_decide as Hin.
  - rewrite !elem_of_cons in Hin.
    destruct Hin as [-> | [-> | [-> | Hnil]]];
      [| | |now apply elem_of_nil in Hnil];
      repeat case_decide; congruence.
  - repeat case_decide; try reflexivity;
      exfalso; apply Hin; subst; rewrite !elem_of_cons; auto.
Qed.

(** X9.  In a call [model(xc, yc, xt, **kws)] a keyword that names
    [self], [xc], [yc] or [xt], which the call has bound by position,
    is a [TypeError] and no coder is called.  Otherwise the keywords
    [num_samples], [aux_t] and [dtype_enc_sample] are taken by
    [Model.__call__] and reach neither coder; every other keyword
    reaches the decoder as given, and the encoder too unless it is
    [noiseless]. *)
Theorem Model_call_kw_intercepts (self : Model) (xc yc xt : pyval)
    (kws : kwargs) (w : world) :
  let dec_kw :=
    delete "num_samples" (delete "aux_t" (delete "dtype_enc_sample" kws)) in
  let enc_kw := delete "noiseless" dec_kw in
  let aux_t := default VNone (kws !! "aux_t") in
  let dtype := default VNone (kws !! "dtype_enc_sample") in
  let xt' := if is_None aux_t then xt else VAugmentedInput xt aux_t in
  ((exists name, name ∈ ["self"; "xc"; "yc"; "xt"] /\ is_Some (kws !! name)) ->
   exists e, Model_call_kw self xc yc xt kws w = (Raise e, w) /\
             exn_class e = TypeError) /\
  ((forall name, name ∈ ["self"; "xc"; "yc"; "xt"] -> kws !! name = None) ->
   Model_call_kw self xc yc xt kws w
   = (r <- call (code (encoder self) xc yc xt' enc_kw);;
      z <- _sample r.2 (default (VInt 1) (kws !! "num_samples"));;
      r' <- call (code (decoder self) r.1
                    (if truthy dtype then B_cast dtype z else z) xt' dec_kw);;
      ret r'.2) w) /\
  (forall key, key ∈ ["num_samples"; "aux_t"; "dtype_enc_sample"] ->
               dec_kw !! key = None /\ enc_kw !! key = None) /\
  (forall key, key ∉ ["num_samples"; "aux_t"; "dtype_enc_sample"] ->
               dec_kw !! key = kws !! key) /\
  (forall key, key ∉ ["num_samples"; "aux_t"; "dtype_enc_sample"] ->
               key <> "noiseless" -> enc_kw !! key = kws !! key).
Proof.
  intros dec_kw enc_kw aux_t dtype xt'.
  split; [|split].
  - intros (name & Hin & Hsome). unfold Model_call_kw.
    destruct (bound_twice positional_names kws) as [clash|] eqn:Eb.
    + eexists. split; reflexivity.
    + exfalso. rewrite (proj1 (bound_twice_None _ _) Eb name Hin) in Hsome.
      now destruct Hsome.
  - intros Hfree. unfold Model_call_kw.
    rewrite (proj2 (bound_twice_None positional_names kws) Hfree).
    apply Model_call_unfold.
  - assert (Hdec := intercepted_lookup kws). cbv zeta in Hdec.
    fold dec_kw in Hdec. repeat split.
    + rewrite Hdec. now rewrite bool_decide_eq_true_2.
    + subst enc_kw. rewrite lookup_delete. case_decide; [reflexivity|].
      rewrite Hdec. now rewrite bool_decide_eq_true_2.
    + intros key Hkey. rewrite Hdec. now rewrite bool_decide_eq_false_2.
    + intros key Hkey Hn. subst enc_kw. rewrite lookup_delete_ne by congruence.
      rewrite Hdec. now rewrite bool_decide_eq_false_2.
Qed.

(** X10.  A call whose keywords name no parameter of [__call__]
    ([self], [xc], [yc], [xt], [num_samples], [aux_t],
    [dtype_enc_sample]) and not [noiseless] hands all of them to both
    coders, draws one sample, casts nothing and leaves [xt] as it
    is. *)
Theorem Model_call_kw_plain (self : Model) (xc yc xt : pyval)
    (kws : kwargs) (w : world) :
  (forall name,
      name ∈ ["self"; "xc"; "yc"; "xt"; "num_samples"; "aux_t";
              "dtype_enc_sample"; "noiseless"] ->
      kws !! name = None) ->
  Model_call_kw self xc yc xt kws w
  = (r <- call (code (encoder self) xc yc xt kws);;
     z <- _sample r.2 (VInt 1);;
     r' <- call (code (decoder self) r.1 z xt kws);;
     ret r'.2) w.
Proof.
  intros Hfree.
  assert (Hn : kws !! "num_samples" = None)
    by (apply Hfree; rewrite !elem_of_cons; auto 10).
  assert (Ha : kws !! "aux_t" = None)
    by (apply Hfree; rewrite !elem_of_cons; auto 10).
  assert (Hd : kws !! "dtype_enc_sample" = None)
    by (apply Hfree; rewrite !elem_of_cons; auto 10).
  assert (Hl : kws !! "noiseless" = None)
    by (apply Hfree; rewrite !elem_of_cons; auto 10).
  unfold Model_call_kw.
  rewrite (proj2 (bound_twice_None positional_names kws))
    by (intros name Hin; apply Hfree; unfold positional_names in Hin;
        rewrite !elem_of_cons in *; tauto).
  rewrite Model_call_unfold.
  rewrite Hn, Ha, Hd. cbn [default is_None truthy].
  rewrite (delete_id kws "dtype_enc_sample" Hd).
  rewrite (delete_id kws "aux_t" Ha).
  rewrite (delete_id kws "num_samples" Hn).
  now rewrite (delete_id kws "noiseless" Hl).
Qed.

(** X11.  [Model.__call__] does not check [num_samples]: whatever
    is given, [None] included, is handed as [num] to [sample] of the
    encoder's distribution, and when that returns the decoder is called
    on what was drawn. *)
Theorem Model_call_kw_num_samples_unchecked (self : Model) (xc yc xt : pyval)
    (kws : kwargs) (v xz z xz' dd : pyval) (d : adist) (w w1 w2 w3 : world) :
  let aux_t := default VNone (kws !! "aux_t") in
  let dtype := default VNone (kws !! "dtype_enc_sample") in
  let xt' := if is_None aux_t then xt else VAugmentedInput xt aux_t in
  let dec_kw :=
    delete "num_samples" (delete "aux_t" (delete "dtype_enc_sample" kws)) in
  (forall name, name ∈ ["self"; "xc"; "yc"; "xt"] -> kws !! name = None) ->
  kws !! "num_samples" = Some v ->
  call (code (encoder self) xc yc xt' (delete "noiseless" dec_kw)) w
  = (Ok (xz, VDist d), w1) ->
  call (dist_sample d (Some v)) w1 = (Ok z, w2) ->
  call (code (decoder self) xz (if truthy dtype then B_cast dtype z else z)
          xt' dec_kw) w2
  = (Ok (xz', dd), w3) ->
  Model_call_kw self xc yc xt kws w = (Ok dd, w3).
Proof.
  intros aux_t dtype xt' dec_kw Hfree Hv Henc Hs Hdec.
  unfold Model_call_kw.
  rewrite (proj2 (bound_twice_None positional_names kws) Hfree).
  rewrite Model_call_unfold. fold aux_t. fold xt'. fold dec_kw. fold dtype.
  rewrite (bind_Ok _ _ _ _ _ Henc). rewrite Hv. cbn [default snd fst].
  rewrite (bind_Ok _ _ w1 w2 z) by exact Hs.
  rewrite (bind_Ok _ _ _ _ _ Hdec). reflexivity.
Qed.


End Calls.

(** * Further properties of the objectives *)

Section MoreObjectives.
Context `{Externals}.

Lemma keeps_zipM {A B C} (f : A -> B -> M C) (xs : list A) (ys : list B) :
  Forall (fun x => forall y, keeps_epsilon (f x y)) xs ->
  keeps_epsilon (zipM f xs ys).
Proof.
  intros HF. revert ys. induction HF as [|x xs Hx _ IH]; intros [|y ys]; simpl;
    try apply keeps_ret.
  apply keeps_bind; [apply Hx|]. intros z.
  apply keeps_bind; [apply IH|]. intros zs. apply keeps_ret.
Qed.

Lemma keeps_kl (q : pyval) : forall p, keeps_epsilon (_kl q p).
Proof.
  induction q as [ | b | n | o | d | qs IH | x IHx aux_t IHaux]
    using pyval_nested_ind; intros p; destruct p; simpl;
    unfold no_method; try apply keeps_raise; try apply keeps_call.
  apply keeps_bind; [now apply keeps_zipM|]. intros ks. apply keeps_ret.
Qed.

Lemma keeps_method_logpdf (v y : pyval) : keeps_epsilon (method_logpdf v y).
Proof.
  destruct v; simpl; unfold no_attribute;
    try apply keeps_raise; apply keeps_call.
Qed.

Ltac keeps_steps :=
  repeat lazymatch goal with
    | |- keeps_epsilon (bind _ _) => apply keeps_bind; [|intros ?]
    | |- keeps_epsilon (let '(_, _) := ?r in _) => destruct r
    | |- keeps_epsilon (lift _) => apply keeps_lift
    | |- keeps_epsilon (ret _) => apply keeps_ret
    | |- keeps_epsilon (call _) => apply keeps_call
    | |- keeps_epsilon (_sample _ _) => apply keeps_sample
    | |- keeps_epsilon (_kl _ _) => apply keeps_kl
    | |- keeps_epsilon (method_logpdf _ _) => apply keeps_method_logpdf
    | |- keeps_epsilon (Model_call_kw _ _ _ _ _) => apply keeps_Model_call_kw
    end.

(** X13.  The helpers, both forms of the call and the two training
    objectives leave [B.epsilon] as they found it, whether they return
    or raise: in the module only the loop of [predict] assigns to
    it. *)
Theorem objectives_keep_epsilon :
  (forall x num, keeps_epsilon (_sample x num)) /\
  (forall q p, keeps_epsilon (_kl q p)) /\
  (forall self contexts xt kws,
      keeps_epsilon (Model_call_contexts self contexts xt kws)) /\
  (forall model xc yc xt yt n normalise kw_args,
      keeps_epsilon (loglik model xc yc xt yt n normalise kw_args)) /\
  (forall model xc yc xt yt n normalise subsume_context kw_args,
      keeps_epsilon
        (elbo model xc yc xt yt n normalise subsume_context kw_args)).
Proof.
  split; [apply keeps_sample|]. split; [intros q p; apply keeps_kl|].
  split.
  { intros. unfold Model_call_contexts.
    destruct (bound_twice positional_names_contexts kws);
      [apply keeps_raise | apply keeps_Model_call_kw]. }
  split.
  - intros. unfold loglik. keeps_steps.
  - intros. unfold elbo. destruct subsume_context; keeps_steps.
Qed.

(** The keywords of a call with one named keyword. *)
Lemma keywords_one (k : string) (v : pyval) (kw_args : kwargs) :
  keywords [(k, v)] kw_args =
  match kw_args !! k with
  | None => Ok (<[k := v]> kw_args)
  | Some _ =>
      Raise {| exn_class := TypeError;
               exn_msg := "got multiple values for keyword argument '"
                          ++ k ++ "'" |}
  end.
Proof. reflexivity. Qed.

(** A call raises [TypeError] when [**kw_args] repeats one of its
    named keywords, and merges the two otherwise. *)
Lemma keywords_repeated (named : list (string * pyval)) (kw_args : kwargs) :
  (exists k, k ∈ named.*1 /\ is_Some (kw_args !! k)) ->
  exists e, keywords named kw_args = Raise e /\ exn_class e = TypeError.
Proof.
  induction named as [|[k v] rest IH]; intros (k0 & Hin & Hsome).
  - now apply elem_of_nil in Hin.
  - simpl. destruct (keywords rest kw_args) as [m|e] eqn:Erest.
    + destruct (m !! k) eqn:Ek; [eexists; split; reflexivity|].
      exfalso. simpl in Hin. apply elem_of_cons in Hin as [-> | Hin].
      * (* the keys of [kw_args] are kept *)
        assert (Hkeep : forall named m, keywords named kw_args = Ok m ->
                  forall key, is_Some (kw_args !! key) -> is_Some (m !! key)).
        { clear. induction named as [|[k v] rest IHn]; intros m Hm key Hkey.
          - simpl in Hm. now injection Hm as <-.
          - simpl in Hm. destruct (keywords rest kw_args) as [m0|] eqn:E0;
              [|discriminate].
            destruct (m0 !! k); [discriminate|]. injection Hm as <-.
            rewrite lookup_insert. case_decide; [eauto|].
            eapply IHn; eauto. }
        destruct (Hkeep _ _ Erest _ Hsome) as [x Hx]. congruence.
      * destruct (IH (ex_intro _ k0 (conj Hin Hsome))) as (e & He & _).
        congruence.
    + destruct (decide (k0 ∈ rest.*1)) as [Hin'|Hnin].
      * destruct (IH (ex_intro _ k0 (conj Hin' Hsome))) as (e' & He' & Hc).
        exists e'. split; [congruence | exact Hc].
      * (* [rest] alone already failed; its failure is a [TypeError] *)
        assert (Hty : forall named e, keywords named kw_args = Raise e ->
                  exn_class e = TypeError).
        { clear. induction named as [|[k v] rest IHn]; intros e He.
          - discriminate.
          - simpl in He. destruct (keywords rest kw_args) as [m0|e0] eqn:E0.
            + destruct (m0 !! k); [|discriminate]. now injection He as <-.
            + injection He as <-. eapply IHn; eauto. }
        exists e. split; [reflexivity | eapply Hty; eauto].
Qed.

(** X14.  When [kw_args] names [num_samples], [dtype_enc_sample] or
    [dtype_lik], which [loglik] itself passes to the model, the call of
    the model raises [TypeError] before the model runs: no coder is
    called and the world is untouched. *)
Theorem loglik_repeated_keyword (model : Model) (xc yc xt yt : pyval) (n : Z)
    (normalise : bool) (kw_args : kwargs) (w : world) :
  is_Some (kw_args !! "num_samples") \/
  is_Some (kw_args !! "dtype_enc_sample") \/
  is_Some (kw_args !! "dtype_lik") ->
  exists e, loglik model xc yc xt yt n normalise kw_args w = (Raise e, w) /\
            exn_class e = TypeError.
Proof.
  intros Hrep. unfold loglik.
  match goal with |- context [keywords ?named kw_args] =>
    destruct (keywords_repeated named kw_args) as (e & He & Hc) end.
  { destruct Hrep as [Hs | [Hs | Hs]];
      [exists "num_samples" | exists "dtype_enc_sample" | exists "dtype_lik"];
      (split; [simpl; rewrite !elem_of_cons; auto | exact Hs]). }
  exists e. split; [|exact Hc].
  apply bind_Raise. unfold lift. now rewrite He.
Qed.

(** X15.  Normalising changes the value only: with [normalise=True],
    [loglik] runs as with [normalise=False], raises what that run
    raises, and otherwise divides its value by [shape(xt, -1)], the
    caller's [xt] also when [aux_t] is among the options. *)
Theorem loglik_normalised (model : Model) (xc yc xt yt : pyval) (n : Z)
    (kw_args : kwargs) (w : world) :
  loglik model xc yc xt yt n true kw_args w =
  match loglik model xc yc xt yt n false kw_args w with
  | (Ok u, w') => (Ok (py_div u (B_shape xt (-1))), w')
  | (Raise e, w') => (Raise e, w')
  end.
Proof.
  unfold loglik, bind, lift, ret.
  destruct (keywords _ kw_args) as [kws|e]; [|reflexivity].
  destruct (Model_call_kw model xc yc xt kws w) as [[pred|e] w1]; [|reflexivity].
  destruct (method_logpdf pred _ w1) as [[lp|e] w2]; reflexivity.
Qed.

(** X16.  What [loglik] asks of the model, for options that repeat
    none of its own keywords: a [TypeError] when they name [self] (or
    another parameter the call binds by position); otherwise
    [num_samples] draws of the encoding, cast to the float type of
    [yt] when that type is true as a condition; [dtype_lik], the
    promoted type, added to the options of both coders; [aux_t], when
    among the options, wrapped into the target inputs, and [noiseless]
    kept from the encoder. *)
Theorem loglik_calls_model (model : Model) (xc yc xt yt : pyval) (n : Z)
    (normalise : bool) (kw_args : kwargs) (w : world) :
  let float_ := B_dtype_float yt in
  let float64 := B_promote_dtypes float_ np_float64 in
  kw_args !! "num_samples" = None ->
  kw_args !! "dtype_enc_sample" = None ->
  kw_args !! "dtype_lik" = None ->
  loglik model xc yc xt yt n normalise kw_args w
  = (pred <- match bound_twice positional_names kw_args with
             | Some name => multiple_values name
             | None =>
                 Model_call model xc yc xt (VInt n)
                   (default VNone (kw_args !! "aux_t")) float_
                   (<["dtype_lik" := float64]> (delete "aux_t" kw_args))
             end;;
     logpdfs <- method_logpdf pred (B_cast float64 yt);;
     let logpdfs :=
       if 1 <? n
       then py_sub (B_logsumexp logpdfs 0) (B_log (VInt n)) else logpdfs in
     ret (if normalise then py_div logpdfs (B_shape xt (-1)) else logpdfs)) w.
Proof.
  intros float_ float64 Hn Hd Hl. unfold loglik. fold float_. fold float64.
  assert (Hk : keywords [("num_samples", VInt n); ("dtype_enc_sample", float_);
                         ("dtype_lik", float64)] kw_args
               = Ok (<["num_samples" := VInt n]>
                       (<["dtype_enc_sample" := float_]>
                          (<["dtype_lik" := float64]> kw_args)))).
  { simpl. rewrite Hl. rewrite lookup_insert_ne by discriminate. rewrite Hd.
    rewrite !lookup_insert_ne by discriminate. now rewrite Hn. }
  rewrite (bind_Ok _ _ w w _ (proj2 (lift_returns _ _ _ _) (conj Hk eq_refl))).
  clear Hk.
  set (kws := <["num_samples" := VInt n]>
                (<["dtype_enc_sample" := float_]>
                   (<["dtype_lik" := float64]> kw_args))).
  assert (H1 : kws !! "num_samples" = Some (VInt n))
    by apply lookup_insert_eq.
  assert (H2 : kws !! "aux_t" = kw_args !! "aux_t")
    by (subst kws; now rewrite !lookup_insert_ne by discriminate).
  assert (H3 : kws !! "dtype_enc_sample" = Some float_)
    by (subst kws; rewrite lookup_insert_ne by discriminate;
        apply lookup_insert_eq).
  assert (Hb : bound_twice positional_names kws
               = bound_twice positional_names kw_args).
  { apply bound_twice_ext. intros name Hin. subst kws.
    unfold positional_names in Hin. rewrite !elem_of_cons in Hin.
    destruct Hin as [-> | [-> | [-> | [-> | Hnil]]]];
      [| | | |now apply elem_of_nil in Hnil];
      now rewrite !lookup_insert_ne by discriminate. }
  unfold Model_call_kw. rewrite Hb, H1, H2, H3. cbn [default].
  replace (delete "num_samples"
             (delete "aux_t" (delete "dtype_enc_sample" kws)))
    with (<["dtype_lik" := float64]> (delete "aux_t" kw_args));
    [reflexivity|].
  apply map_eq. intros key. subst kws.
  rewrite !lookup_delete, !lookup_insert, !lookup_delete.
  repeat case_decide; subst; try congruence; try reflexivity.
Qed.
End MoreObjectives.

Section MoreElbo.
Context `{Externals}.

(** X17.  When [kw_args] names [dtype_lik], which [elbo] itself passes
    to the coders, the first call of the pipeline raises [TypeError]:
    no coder is called and the world is untouched. *)
Theorem elbo_repeated_keyword (model : Model) (xc yc xt yt : pyval) (n : Z)
    (normalise subsume_context : bool) (kw_args : kwargs) (w : world) :
  is_Some (kw_args !! "dtype_lik") ->
  exists e,
    elbo model xc yc xt yt n normalise subsume_context kw_args w = (Raise e, w) /\
    exn_class e = TypeError.
Proof.
  intros [v Hv]. unfold elbo.
  destruct subsume_context; cbv zeta; cbn [fst snd];
    rewrite keywords_one, Hv; eexists; (split; [apply bind_Raise|]); reflexivity.
Qed.

(** X18.  [elbo] calls the coders itself, not through
    [Model.__call__]: when it returns, [kw_args] did not name
    [dtype_lik], and the tracked encoding, the recoding and the
    decoding were all three given the caller's options with
    [dtype_lik] added, [noiseless] and [aux_t] included if present. *)
Theorem elbo_hands_options_on (model : Model) (xc yc xt yt : pyval) (n : Z)
    (normalise subsume_context : bool) (kw_args : kwargs) (w w' : world)
    (v : pyval) :
  let float_ := B_dtype_float yt in
  let float64 := B_promote_dtypes float_ np_float64 in
  let xt' := if subsume_context then B_concat xc xt (-1) else xt in
  let yt' := if subsume_context then B_concat yc yt (-1) else yt in
  let kws := <["dtype_lik" := float64]> kw_args in
  elbo model xc yc xt yt n normalise subsume_context kw_args w = (Ok v, w') ->
  kw_args !! "dtype_lik" = None /\
  (forall key, key <> "dtype_lik" -> kws !! key = kw_args !! key) /\
  exists xz pz h qz z xz' d w1 w2 w3 w4,
    call (code_track (encoder model) xc yc xt' kws) w = (Ok (xz, pz, h), w1) /\
    call (recode_stochastic (encoder model) pz xt' yt' h kws) w1 = (Ok qz, w2) /\
    _sample qz (VInt n) w2 = (Ok z, w3) /\
    call (code (decoder model) xz (B_cast float_ z) xt' kws) w3
    = (Ok (xz', d), w4).
Proof.
  intros float_ float64 xt' yt' kws Hrun.
  apply elbo_returns in Hrun as (lp & klv & Hterms & _).
  destruct Hterms as (kws0 & xz & pz & h & qz & z & xz' & d & w1 & w2 & w3
                      & w4 & w5 & Hk & Hp & Hq & Hz & Hd & _).
  rewrite keywords_one in Hk.
  destruct (kw_args !! "dtype_lik") eqn:El; [discriminate|].
  injection Hk as <-. split; [reflexivity|]. split.
  - intros key Hkey. subst kws. now rewrite lookup_insert_ne.
  - exists xz, pz, h, qz, z, xz', d, w1, w2, w3, w4. auto.
Qed.

(** X19.  The divergence is the last thing [elbo] evaluates: when
    [_kl] raises (as it does for a posterior and a prior of different
    kinds), the encoder, the sampling, the decoder and the log-density
    have all run, and [elbo] raises that exception in the world [_kl]
    left, with or without normalisation. *)
Theorem elbo_kl_failure_is_last (model : Model) (xc yc xt yt : pyval) (n : Z)
    (normalise subsume_context : bool) (kw_args kws : kwargs)
    (xz pz h qz z xz' d logpdfs : pyval) (w w1 w2 w3 w4 w5 w6 : world)
    (e : exn) :
  let float_ := B_dtype_float yt in
  let float64 := B_promote_dtypes float_ np_float64 in
  let xt' := if subsume_context then B_concat xc xt (-1) else xt in
  let yt' := if subsume_context then B_concat yc yt (-1) else yt in
  keywords [("dtype_lik", float64)] kw_args = Ok kws ->
  call (code_track (encoder model) xc yc xt' kws) w = (Ok (xz, pz, h), w1) ->
  call (recode_stochastic (encoder model) pz xt' yt' h kws) w1 = (Ok qz, w2) ->
  _sample qz (VInt n) w2 = (Ok z, w3) ->
  call (code (decoder model) xz (B_cast float_ z) xt' kws) w3
  = (Ok (xz', d), w4) ->
  method_logpdf d (B_cast float64 yt') w4 = (Ok logpdfs, w5) ->
  _kl qz pz w5 = (Raise e, w6) ->
  elbo model xc yc xt yt n normalise subsume_context kw_args w = (Raise e, w6).
Proof.
  intros float_ float64 xt' yt' Hk Hp Hq Hz Hd Hl Hkl. unfold elbo.
  fold float_. fold float64.
  replace (if subsume_context
           then (B_concat xc xt (-1), B_concat yc yt (-1)) else (xt, yt))
    with (xt', yt') by (subst xt' yt'; now destruct subsume_context).
  cbv zeta.
  rewrite (bind_Ok _ _ w w kws) by (now apply lift_returns).
  rewrite (bind_Ok _ _ _ _ _ Hp). cbv beta iota.
  rewrite (bind_Ok _ _ w1 w1 kws) by (now apply lift_returns).
  rewrite (bind_Ok _ _ _ _ _ Hq), (bind_Ok _ _ _ _ _ Hz).
  rewrite (bind_Ok _ _ w3 w3 kws) by (now apply lift_returns).
  rewrite (bind_Ok _ _ _ _ _ Hd). cbv beta iota.
  rewrite (bind_Ok _ _ _ _ _ Hl). now apply bind_Raise.
Qed.
End MoreElbo.

(** * Further properties of the loop of [predict] *)

Section MoreLoop.
Context `{Externals}.

(** Fuel beyond what a run needs changes nothing. *)
Lemma predict_loop_more_fuel (pn : pyval) (eb : float) (fuel k : nat) :
  forall w r,
    predict_loop fuel pn eb w = Some r ->
    predict_loop (fuel + k) pn eb w = Some r.
Proof.
  induction fuel as [|fuel IH]; intros w r; [discriminate|].
  cbn [Nat.add]. rewrite !predict_loop_pass.
  destruct (method_sample pn w) as [[s|e] w1]; [auto|].
  destruct (is_Exception (exn_class e)); [|auto].
  destruct (above_ceiling (escalate (B_epsilon w))); [auto|]. apply IH.
Qed.

Lemma predict_loop_last_pass (pn : pyval) (eb eps : float) (fuel : nat) :
  above_ceiling (escalate eps) = true ->
  forall w, B_epsilon w = eps ->
            exists r, predict_loop (S fuel) pn eb w = Some r.
Proof.
  intros Hc w Hw. rewrite predict_loop_pass, Hw, Hc.
  destruct (method_sample pn w) as [[s|e] w1]; [eauto|].
  destruct (is_Exception (exn_class e)); eauto.
Qed.

Lemma predict_loop_one_more_pass (pn : pyval) (eb eps : float) (fuel : nat) :
  (forall w, B_epsilon w = escalate eps ->
             exists r, predict_loop fuel pn eb w = Some r) ->
  forall w, B_epsilon w = eps ->
            exists r, predict_loop (S fuel) pn eb w = Some r.
Proof.
  intros Hnext w Hw. rewrite predict_loop_pass, Hw.
  destruct (method_sample pn w) as [[s|e] w1]; [eauto|].
  destruct (is_Exception (exn_class e)); [|eauto].
  destruct (above_ceiling (escalate eps)); [eauto|].
  apply Hnext. reflexivity.
Qed.

(** X20.  From [B.epsilon = 1e-6], the setting of the tests, the
    sampling block of [predict] is left after at most four calls of
    [sample], whatever [sample] does, and so [predict] comes back,
    whatever the model and the globals; fuel beyond four passes
    changes nothing. *)
Theorem predict_ends_from_1e6 (pn : pyval) (w : world) :
  B_epsilon w = 1e-6%float ->
  (exists r w',
      predict_sampling 4 pn w = Some (r, w') /\
      forall k, predict_sampling (4 + k) pn w = Some (r, w')) /\
  (forall G model xc yc xt pred_num_samples num_samples,
      exists r w',
        predict G 4 model xc yc xt pred_num_samples num_samples w
        = Some (r, w')).
Proof.
  intros Hw.
  assert (Hloop : forall pn eb w, B_epsilon w = 1e-6%float ->
            exists r, predict_loop 4 pn eb w = Some r).
  { intros pn0 eb. do 3 apply predict_loop_one_more_pass.
    now apply predict_loop_last_pass. }
  assert (Hblock : forall pn w, B_epsilon w = 1e-6%float ->
            exists r w', predict_sampling 4 pn w = Some (r, w') /\
              forall k, predict_sampling (4 + k) pn w = Some (r, w')).
  { intros pn0 w0 Hw0. destruct (Hloop pn0 (B_epsilon w0) w0 Hw0) as [r Hr].
    unfold predict_sampling.
    assert (Hk : forall k, predict_loop (4 + k) pn0 (B_epsilon w0) w0 = Some r)
      by (intros k; now apply predict_loop_more_fuel).
    rewrite Hr. destruct r as [[s|e] w1]; eexists _, _;
      (split; [reflexivity | intros k; now rewrite Hk]). }
  split; [now apply Hblock|].
  intros G model xc yc xt pns ns. unfold predict.
  pose proof (keeps_predict_marginals model xc yc xt pns w) as K1.
  destruct (predict_marginals model xc yc xt pns w) as [[[mean var]|e] w1];
    simpl in K1; [|eauto].
  pose proof (keeps_predict_noiseless G model ns w1) as K2.
  destruct (predict_noiseless G model ns w1) as [[pn1|e] w2];
    simpl in K2; [|eauto].
  destruct (Hblock pn1 w2) as (r & w' & Hr & _); [congruence|].
  rewrite Hr. destruct r; eauto.
Qed.

(** X21.  The loop ends only if multiplying by 10 gets [B.epsilon]
    above the ceiling.  From a value that the multiplication leaves
    where it is and that is not above the ceiling (0, -0, a NaN, minus
    infinity), with a sampler that keeps failing, no number of passes
    leaves the loop: the call never comes back. *)
Theorem predict_loop_never_ends (pn : pyval) (eb : float) :
  (forall fuel w,
      escalate (B_epsilon w) = B_epsilon w ->
      above_ceiling (B_epsilon w) = false ->
      (forall w1, exists e w2,
          method_sample pn w1 = (Raise e, w2) /\
          is_Exception (exn_class e) = true) ->
      predict_loop fuel pn eb w = None) /\
  Forall (fun eps => escalate eps = eps /\ above_ceiling eps = false)
         [PrimFloat.zero; PrimFloat.neg_zero; PrimFloat.nan;
          PrimFloat.neg_infinity].
Proof.
  split.
  - induction fuel as [|fuel IH]; intros w Hfix Hc Hfails; [reflexivity|].
    rewrite predict_loop_pass.
    destruct (Hfails w) as (e & w1 & Hs & He). rewrite Hs, He, Hfix, Hc.
    apply IH; [| |exact Hfails]; cbn [set_epsilon B_epsilon]; congruence.
  - repeat constructor.
Qed.

(** X22.  An exception outside [Exception] (a [KeyboardInterrupt]) is
    not handled: it leaves the block at once, in the world [sample]
    left, and [B.epsilon] is not reset.  On the first pass that is the
    value at entry; after an escalation it is the escalated value. *)
Theorem predict_sampling_lets_through (fuel : nat) (pn : pyval) (w : world) :
  (forall e w1,
      method_sample pn w = (Raise e, w1) ->
      is_Exception (exn_class e) = false ->
      predict_sampling (S fuel) pn w = Some (Raise e, w1)) /\
  (forall e0 w1 e w2,
      method_sample pn w = (Raise e0, w1) ->
      is_Exception (exn_class e0) = true ->
      above_ceiling (escalate (B_epsilon w)) = false ->
      method_sample pn (set_epsilon (escalate (B_epsilon w)) w1)
      = (Raise e, w2) ->
      is_Exception (exn_class e) = false ->
      predict_sampling (S (S fuel)) pn w = Some (Raise e, w2) /\
      B_epsilon w2 = escalate (B_epsilon w)).
Proof.
  split.
  - intros e w1 Hs He. unfold predict_sampling.
    now rewrite predict_loop_pass, Hs, He.
  - intros e0 w1 e w2 Hs0 He0 Hc Hs He. split.
    + unfold predict_sampling.
      rewrite predict_loop_pass, Hs0, He0, Hc.
      now rewrite predict_loop_pass, Hs, He.
    + apply method_sample_epsilon in Hs. exact Hs.
Qed.

(** X23.  When the first call of [sample] returns, the block returns
    its samples in the world that call left: one call, no escalation,
    and the reset writes back the value [B.epsilon] already has. *)
Theorem predict_sampling_first_pass (fuel : nat) (pn s : pyval) (w w1 : world) :
  method_sample pn w = (Ok s, w1) ->
  predict_sampling (S fuel) pn w = Some (Ok s, w1).
Proof.
  intros Hs. unfold predict_sampling. rewrite predict_loop_pass, Hs.
  apply method_sample_epsilon in Hs. destruct w1 as [eps1 x1].
  cbn in *. now rewrite Hs.
Qed.
End MoreLoop.

Section MorePredict.
Context `{Externals}.

Lemma delete_singleton_same (k : string) (v : pyval) :
  delete k ({[ k := v ]} : kwargs) = ∅.
Proof.
  apply map_eq. intros key. rewrite lookup_delete, lookup_empty.
  case_decide; [reflexivity|]. now apply lookup_singleton_ne.
Qed.

(** X26.  The first call of [predict] gives the coders no options at
    all: the encoder and the decoder are called on the caller's [xc],
    [yc], [xt] with an empty keyword dictionary, the encoding is drawn
    [pred_num_samples] times and is not cast; [noiseless] is not
    asked for, so the marginal variance includes the noise. *)
Theorem predict_first_call_plain (model : Model) (xc yc xt : pyval)
    (pred_num_samples : Z) (w : world) :
  Model_call_kw model xc yc xt {[ "num_samples" := VInt pred_num_samples ]} w
  = (r <- call (code (encoder model) xc yc xt ∅);;
     z <- _sample r.2 (VInt pred_num_samples);;
     r' <- call (code (decoder model) r.1 z xt ∅);;
     ret r'.2) w /\
  predict_marginals model xc yc xt pred_num_samples w
  = (pred <- (fun w => (r <- call (code (encoder model) xc yc xt ∅);;
                        z <- _sample r.2 (VInt pred_num_samples);;
                        r' <- call (code (decoder model) r.1 z xt ∅);;
                        ret r'.2) w);;
     pm <- attr_mean pred;;
     pv <- attr_var pred;;
     pm' <- attr_mean pred;;
     ret (B_mean pm 0,
          py_sub (B_mean (py_add pv (py_pow pm' (VInt 2))) 0)
                 (py_pow (B_mean pm 0) (VInt 2)))) w.
Proof.
  assert (Hcall : forall w,
    Model_call_kw model xc yc xt {[ "num_samples" := VInt pred_num_samples ]} w
    = (r <- call (code (encoder model) xc yc xt ∅);;
       z <- _sample r.2 (VInt pred_num_samples);;
       r' <- call (code (decoder model) r.1 z xt ∅);;
       ret r'.2) w).
  { intros w0. unfold Model_call_kw.
    rewrite (proj2 (bound_twice_None positional_names _))
      by (intros name Hin; unfold positional_names in Hin;
          rewrite !elem_of_cons in Hin;
          destruct Hin as [-> | [-> | [-> | [-> | Hnil]]]];
          [| | | |now apply elem_of_nil in Hnil];
          now apply lookup_singleton_ne).
    rewrite Model_call_unfold.
    rewrite lookup_singleton_eq.
    rewrite !lookup_singleton_ne by discriminate.
    cbn [default is_None truthy].
    rewrite (delete_id _ "dtype_enc_sample")
      by (now apply lookup_singleton_ne).
    rewrite (delete_id _ "aux_t") by (now apply lookup_singleton_ne).
    rewrite delete_singleton_same.
    now rewrite (delete_id (∅ : kwargs) "noiseless") by apply lookup_empty. }
  split; [apply Hcall|].
  unfold predict_marginals, bind. now rewrite Hcall.
Qed.

(** X27.  Were [batch], [x] and [torch] bound in the globals, the
    second call of [predict] would run on [batch["xc"]], [batch["yc"]]
    and [x], not on the caller's data; [noiseless=True] would reach the
    decoder only, [dtype_lik=torch.float64] both coders, and the
    encoding, drawn [num_samples] times, would be cast to
    [torch.float32]. *)
Theorem predict_noiseless_routes (G : gmap string pyval) (model : Model)
    (num_samples : Z) (batch a1 a2 x torch f32 f64 : pyval) (w : world) :
  G !! "batch" = Some batch ->
  py_getitem batch "xc" = Ok a1 ->
  py_getitem batch "yc" = Ok a2 ->
  G !! "x" = Some x ->
  G !! "torch" = Some torch ->
  py_getattr torch "float32" = Ok f32 ->
  py_getattr torch "float64" = Ok f64 ->
  predict_noiseless G model num_samples w
  = (r <- call (code (encoder model) a1 a2 x {[ "dtype_lik" := f64 ]});;
     z <- _sample r.2 (VInt num_samples);;
     r' <- call (code (decoder model) r.1
                   (if truthy f32 then B_cast f32 z else z) x
                   (<["noiseless" := VBool true]> {[ "dtype_lik" := f64 ]}));;
     ret r'.2) w.
Proof.
  intros Hb H1 H2 Hx Ht H32 H64.
  unfold predict_noiseless, load_global, bind at 1 2 3 4 5 6 7 8 9, lift, ret.
  rewrite Hb, H1, H2, Hx, Ht, H32, H64.
  set (kws := <["dtype_enc_sample" := f32]>
                (<["dtype_lik" := f64]>
                   (<["noiseless" := VBool true]>
                      {[ "num_samples" := VInt num_samples ]}))).
  assert (K1 : kws !! "num_samples" = Some (VInt num_samples)).
  { subst kws. rewrite !lookup_insert_ne by discriminate.
    apply lookup_singleton_eq. }
  assert (K2 : kws !! "aux_t" = None).
  { subst kws. rewrite !lookup_insert_ne by discriminate.
    now apply lookup_singleton_ne. }
  assert (K3 : kws !! "dtype_enc_sample" = Some f32)
    by apply lookup_insert_eq.
  assert (K0 : bound_twice positional_names kws = None).
  { apply bound_twice_None. intros name Hin. subst kws.
    unfold positional_names in Hin. rewrite !elem_of_cons in Hin.
    destruct Hin as [-> | [-> | [-> | [-> | Hnil]]]];
      [| | | |now apply elem_of_nil in Hnil];
      rewrite !lookup_insert_ne by discriminate;
      now apply lookup_singleton_ne. }
  unfold Model_call_kw. rewrite K0, Model_call_unfold, K1, K2, K3.
  cbn [default is_None].
  assert (Kdec : delete "num_samples"
                   (delete "aux_t" (delete "dtype_enc_sample" kws))
                 = <["noiseless" := VBool true]> {[ "dtype_lik" := f64 ]}).
  { apply map_eq. intros key. subst kws. rewrite <- !insert_empty.
    rewrite !lookup_delete, !lookup_insert, !lookup_empty.
    repeat case_decide; subst; congruence || reflexivity. }
  rewrite Kdec.
  replace (delete "noiseless"
             (<["noiseless" := VBool true]> ({[ "dtype_lik" := f64 ]} : kwargs)))
    with ({[ "dtype_lik" := f64 ]} : kwargs); [reflexivity|].
  rewrite delete_insert_eq. symmetry. apply delete_id.
  now apply lookup_singleton_ne.
Qed.
End MorePredict.

(** * tests/util.py: [approx] *)

Module TestUtilFacts.
Import TestUtil.

Section ApproxFacts.
Context {array options : Type}.
Context (allclose : tval (array:=array) -> tval (array:=array) -> options -> bool).

(** Induction on test values that goes through the elements of a
    [Parallel] and of a tuple. *)
Lemma tval_nested_ind (P : tval (array:=array) -> Prop) :
  P TNone ->
  (forall a, P (TArray a)) ->
  (forall xs, Forall P xs -> P (TParallel xs)) ->
  (forall xs, Forall P xs -> P (TTuple xs)) ->
  forall v, P v.
Proof.
  intros HNone HArray HPar HTup.
  fix IH 1. intros [ | a | xs | xs].
  - exact HNone.
  - apply HArray.
  - apply HPar. induction xs as [|x xs IHxs]; constructor; [apply IH | exact IHxs].
  - apply HTup. induction xs as [|x xs IHxs]; constructor; [apply IH | exact IHxs].
Qed.

Lemma approx_each_passed (f : tval (array:=array) -> tval (array:=array) -> verdict)
    (xs ys : list tval) :
  length xs = length ys ->
  (approx_each f xs ys = Passed <-> Forall2 (fun x y => f x y = Passed) xs ys).
Proof.
  revert ys. induction xs as [|x xs IH]; intros [|y ys] Hlen; try discriminate.
  - split; [constructor | reflexivity].
  - injection Hlen as Hlen. simpl. split.
    + destruct (f x y) eqn:E; [|discriminate].
      intros Hr. constructor; [exact E | now apply IH].
    + intros HF. inversion HF as [|? ? ? ? Hxy Hr]; subst.
      rewrite Hxy. now apply IH.
Qed.

Lemma approx_sequence_unfold (a b : tval (array:=array)) (xs ys : list tval)
    (kw_args : options) :
  elements a = Some xs ->
  elements b = Some ys ->
  approx allclose a b kw_args =
  if Nat.eqb (length xs) (length ys)
  then approx_each (fun ai bi => approx allclose ai bi kw_args) xs ys
  else AssertionError.
Proof.
  destruct a, b; simpl; try discriminate; intros [= <-] [= <-]; reflexivity.
Qed.

(** X24.  On two sequences, each a [Parallel] or a tuple, [approx]
    passes exactly when they have the same length and [approx] passes
    on the elements pair by pair; with different lengths the assertion
    fails whatever the elements are.  A [Parallel] and a tuple are not
    told apart. *)
Theorem approx_sequences (a b : tval (array:=array)) (xs ys : list tval)
    (kw_args : options) :
  elements a = Some xs ->
  elements b = Some ys ->
  (approx allclose a b kw_args = Passed <->
   length xs = length ys /\
   Forall2 (fun x y => approx allclose x y kw_args = Passed) xs ys) /\
  (length xs <> length ys -> approx allclose a b kw_args = AssertionError) /\
  approx allclose a b kw_args
  = approx allclose (TParallel xs) (TTuple ys) kw_args.
Proof.
  intros Ha Hb. rewrite (approx_sequence_unfold a b xs ys kw_args Ha Hb).
  split; [|split].
  - destruct (Nat.eqb (length xs) (length ys)) eqn:E.
    + apply Nat.eqb_eq in E. rewrite (approx_each_passed _ _ _ E). tauto.
    + apply Nat.eqb_neq in E. split; [discriminate | tauto].
  - intros Hne. apply Nat.eqb_neq in Hne. now rewrite Hne.
  - reflexivity.
Qed.

(** X25.  When every array is close to itself under the given
    options, so is every value to itself, however [Parallel]s and
    tuples are nested in it. *)
Theorem approx_reflexive (kw_args : options) :
  (forall x, allclose (TArray x) (TArray x) kw_args = true) ->
  forall v, approx allclose v v kw_args = Passed.
Proof.
  intros Hrefl.
  assert (Hseq : forall xs : list (tval (array:=array)),
    Forall (fun v => approx allclose v v kw_args = Passed) xs ->
    approx_each (fun ai bi => approx allclose ai bi kw_args) xs xs = Passed).
  { induction 1 as [|x xs Hx _ IH]; simpl; [reflexivity|]. now rewrite Hx. }
  induction v as [ | a | xs IH | xs IH] using tval_nested_ind; simpl.
  - reflexivity.
  - now rewrite Hrefl.
  - rewrite Nat.eqb_refl. now apply Hseq.
  - rewrite Nat.eqb_refl. now apply Hseq.
Qed.
End ApproxFacts.
End TestUtilFacts.

(** * More runs on the small instances *)

Module MoreRuns.
Import Toy Toy2.

Lemma sample_raises_first_failure_witness :
  _sample (VParallel [g0; faulty; g1]) (VInt 2) w0
  = (Raise {| exn_class := TypeError; exn_msg := "sample failed" |},
     after 2).
Proof.
  apply (@sample_raises_first_failure toy_carrier toy [g0] [g1] faulty (VInt 2)
           [tensor [0; 0]%Q] w0 (after 1)).
  - eapply mapM_run_cons; [reflexivity | constructor].
  - reflexivity.
Defined.

Lemma sample_mirrors_structure_witness :
  mirrors (VParallel [g0; VParallel [g1; g2]])
          (VParallel [tensor [0%Q]; VParallel [tensor [1%Q]; tensor [2%Q]]]).
Proof.
  apply (@sample_mirrors_structure toy_carrier toy _ (VInt 1) _ w0
           (after 3)).
  vm_compute. reflexivity.
Defined.

Lemma sample_without_method_witness :
  exists e, _sample xt7 (VInt 1) w0 = (Raise e, w0) /\
            exn_class e = NotFoundLookupError.
Proof.
  apply (proj1 (@sample_without_method toy_carrier toy xt7 (VInt 1) w0)).
  reflexivity.
Defined.

Lemma kl_without_method_witness :
  exists e, _kl g0 (VParallel [g0]) w0 = (Raise e, w0) /\
            exn_class e = NotFoundLookupError.
Proof.
  apply (@kl_without_method toy_carrier toy g0 (VParallel [g0]) w0).
  reflexivity.
Defined.

Lemma kl_append_branch_witness :
  _kl (VParallel ([g1] ++ [g2])) (VParallel ([g0] ++ [g0])) w0
  = (Ok (py_add (tensor [1 # 2]) (tensor [2%Q])), w0).
Proof.
  apply (@kl_append_branch toy_carrier toy [g1] [g0] g2 g0 _ _ w0 w0 w0 eq_refl);
    vm_compute; reflexivity.
Defined.

Lemma kl_raises_first_failure_witness :
  exists e,
    _kl (VParallel ([g1] ++ g0 :: [g2])) (VParallel ([g0] ++ VParallel [] :: [g2]))
        w0 = (Raise e, w0) /\
    exn_class e = NotFoundLookupError.
Proof.
  eexists. split.
  - apply (@kl_raises_first_failure toy_carrier toy [g1] [g2] [g0] [g2]
             [tensor [1 # 2]] g0 (VParallel []) w0 w0 w0 _ eq_refl).
    + eapply mapM_run_cons; [reflexivity | constructor].
    + reflexivity.
  - reflexivity.
Defined.

Lemma Model_call_propagates_witness :
  Model_call unit_model xc5 yc5 xt7 (VInt 2) VNone VNone ∅ w0
  = (Ok g0, (after 1)).
Proof.
  apply (proj2 (proj2 (proj2
           (@Model_call_propagates toy_carrier toy unit_model xc5 yc5 xt7
              (VInt 2) VNone VNone ∅ w0)))
           xt7 g0 w0 (tensor [0; 0]%Q) (after 1) xt7);
    reflexivity.
Defined.

Lemma Model_call_kw_intercepts_witness :
  exists e,
    Model_call_kw unit_model xc5 yc5 xt7 clashing_keywords w0 = (Raise e, w0) /\
    exn_class e = TypeError.
Proof.
  apply (proj1 (@Model_call_kw_intercepts toy_carrier toy unit_model
                  xc5 yc5 xt7 clashing_keywords w0)).
  exists "xc". split.
  - rewrite !elem_of_cons. auto.
  - eexists. vm_compute. reflexivity.
Defined.

Lemma Model_call_kw_plain_witness :
  Model_call_kw unit_model xc5 yc5 xt7 plain_keywords w0
  = (r <- call (code (encoder unit_model) xc5 yc5 xt7 plain_keywords);;
     z <- _sample r.2 (VInt 1);;
     r' <- call (code (decoder unit_model) r.1 z xt7 plain_keywords);;
     ret r'.2) w0.
Proof.
  apply (@Model_call_kw_plain toy_carrier toy unit_model xc5 yc5 xt7
           plain_keywords w0).
  intros name Hin. rewrite !elem_of_cons in Hin.
  destruct Hin as [-> | [-> | [-> | [-> | [-> | [-> | [-> | [-> | Hnil]]]]]]]];
    [| | | | | | | |now apply elem_of_nil in Hnil];
    vm_compute; reflexivity.
Defined.

(** [num_samples=None]: the encoding is sampled with [num=None] and the
    call returns the decoder's distribution. *)
Lemma Model_call_kw_num_samples_unchecked_witness :
  Model_call_kw unit_model xc5 yc5 xt7 bad_keywords w0 = (Ok g0, after 1).
Proof.
  apply (@Model_call_kw_num_samples_unchecked toy_carrier toy unit_model
           xc5 yc5 xt7 bad_keywords VNone xt7 (tensor [0%Q]) xt7 g0 (Gaussian 0)
           w0 w0 (after 1) (after 1)).
  - intros name Hin. rewrite !elem_of_cons in Hin.
    destruct Hin as [-> | [-> | [-> | [-> | Hnil]]]];
      [| | | |now apply elem_of_nil in Hnil];
      vm_compute; reflexivity.
  - vm_compute. reflexivity.
  - vm_compute. reflexivity.
  - vm_compute. reflexivity.
  - vm_compute. reflexivity.
Defined.


Lemma loglik_repeated_keyword_witness :
  exists e,
    loglik unit_model xc5 yc5 xt7 yt7 1 true plain_keywords w0 = (Raise e, w0) /\
    exn_class e = TypeError.
Proof.
  apply (@loglik_repeated_keyword toy_carrier toy unit_model xc5 yc5 xt7 yt7 1
           true plain_keywords w0).
  right. right. eexists. vm_compute. reflexivity.
Defined.

Lemma loglik_calls_model_witness :
  loglik unit_model xc5 yc5 xt7 yt7 1 true ∅ w0
  = (pred <- match bound_twice positional_names (∅ : kwargs) with
             | Some name => multiple_values name
             | None =>
                 Model_call unit_model xc5 yc5 xt7 (VInt 1)
                   (default VNone ((∅ : kwargs) !! "aux_t")) (B_dtype_float yt7)
                   (<["dtype_lik" :=
                        B_promote_dtypes (B_dtype_float yt7) np_float64]>
                      (delete "aux_t" ∅))
             end;;
     logpdfs <- method_logpdf pred
                  (B_cast (B_promote_dtypes (B_dtype_float yt7) np_float64) yt7);;
     let logpdfs :=
       if 1 <? 1
       then py_sub (B_logsumexp logpdfs 0) (B_log (VInt 1)) else logpdfs in
     ret (if true then py_div logpdfs (B_shape xt7 (-1)) else logpdfs)) w0.
Proof.
  apply (@loglik_calls_model toy_carrier toy unit_model xc5 yc5 xt7 yt7 1
           true ∅ w0); reflexivity.
Defined.

Lemma elbo_repeated_keyword_witness :
  exists e,
    elbo unit_model xc5 yc5 xt7 yt7 1 true true plain_keywords w0 = (Raise e, w0) /\
    exn_class e = TypeError.
Proof.
  apply (@elbo_repeated_keyword toy_carrier toy unit_model xc5 yc5 xt7 yt7 1
           true true plain_keywords w0).
  eexists. vm_compute. reflexivity.
Defined.

Lemma elbo_hands_options_on_witness :
  (∅ : kwargs) !! "dtype_lik" = None /\
  (forall key, key <> "dtype_lik" -> elbo_keywords !! key = (∅ : kwargs) !! key).
Proof.
  destruct (@elbo_hands_options_on toy_carrier toy unit_model xc5 yc5 xt7 yt7 1
              true true ∅ w0 (after 1) (tensor [- (11 # 24)]%Q))
    as (Hnone & Hkeys & _).
  - vm_compute. reflexivity.
  - split; [exact Hnone | exact Hkeys].
Defined.

(** With a prior in a [Parallel] and a bare posterior, everything up
    to the log-density runs and [_kl] then finds no method. *)
Lemma elbo_kl_failure_is_last_witness :
  exists e,
    elbo (H0 := lopsided) unit_model xc5 yc5 xt7 yt7 1 true false ∅ w0
    = (Raise e, after 1) /\
    exn_class e = NotFoundLookupError.
Proof.
  eexists. split.
  - apply (@elbo_kl_failure_is_last toy_carrier lopsided unit_model
             xc5 yc5 xt7 yt7 1 true false ∅ elbo_keywords
             xt7 (VParallel [g0]) handle g1 (tensor [1%Q]) xt7 g0
             (tensor [- (7 # 2)]%Q) w0 w0 w0 (after 1) (after 1) (after 1)
             (after 1)); vm_compute; reflexivity.
  - reflexivity.
Defined.

Lemma predict_noiseless_routes_witness :
  predict_noiseless patched unit_model 5 w0
  = (r <- call (code (encoder unit_model) xc5 yc5 xt7
                  {[ "dtype_lik" := float64_obj ]});;
     z <- _sample r.2 (VInt 5);;
     r' <- call (code (decoder unit_model) r.1
                   (if truthy float32_obj then B_cast float32_obj z else z) xt7
                   (<["noiseless" := VBool true]>
                      {[ "dtype_lik" := float64_obj ]}));;
     ret r'.2) w0.
Proof.
  apply (@predict_noiseless_routes toy_carrier toy patched unit_model 5
           batch_obj xc5 yc5 xt7 torch_obj float32_obj float64_obj w0);
    vm_compute; reflexivity.
Defined.

Lemma predict_ends_from_1e6_witness :
  exists r w',
    predict patched 4 stiff_model xc5 yc5 xt7 50 5 w0 = Some (r, w').
Proof.
  apply (proj2 (@predict_ends_from_1e6 toy_carrier toy g0 w0 eq_refl)).
Defined.

Lemma predict_loop_never_ends_witness :
  predict_loop 7 broken 1e-6 zero_world = None.
Proof.
  apply (proj1 (@predict_loop_never_ends toy_carrier toy
                  broken 1e-6%float)).
  - reflexivity.
  - reflexivity.
  - intros w1. eexists _, _. split; reflexivity.
Defined.

Lemma predict_sampling_lets_through_witness :
  predict_sampling 2 interrupted w0
  = Some (Raise {| exn_class := KeyboardInterrupt; exn_msg := "" |},
          {| B_epsilon := escalate 1e-6; ext := 2%nat |}) /\
  B_epsilon {| B_epsilon := escalate 1e-6; ext := 2%nat |}
  = escalate (B_epsilon w0).
Proof.
  apply (proj2 (@predict_sampling_lets_through toy_carrier toy 0
                  interrupted w0)
           {| exn_class := LinAlgError;
              exn_msg := "matrix is not positive definite" |} (after 1));
    reflexivity.
Defined.

Lemma predict_sampling_first_pass_witness :
  predict_sampling 1 g0 w0 = Some (Ok (tensor [0%Q]), after 1).
Proof.
  apply (@predict_sampling_first_pass toy_carrier toy 0 g0 (tensor [0%Q])
           w0 (after 1)).
  reflexivity.
Defined.

Lemma approx_sequences_witness :
  TestUtil.approx TestUtil.close_within left_seq right_seq 1 = TestUtil.Passed.
Proof.
  apply (proj2 (proj1 (TestUtilFacts.approx_sequences TestUtil.close_within
                         left_seq right_seq _ _ 1 eq_refl eq_refl))).
  split; [reflexivity|]. repeat constructor.
Defined.

Lemma approx_reflexive_witness :
  TestUtil.approx TestUtil.close_within left_seq left_seq 0 = TestUtil.Passed.
Proof.
  apply (TestUtilFacts.approx_reflexive TestUtil.close_within 0).
  intros x. simpl. rewrite Z.sub_diag. reflexivity.
Defined.
End MoreRuns.
